(** * OmniMessage Gateway: a shallow embedding of the dispatch engine

    The development follows the Python packages of the repository:
    [gateway/models.py], [gateway/templates.py], [gateway/router.py],
    [gateway/core.py], [gateway/store.py] and [gateway/rate_limiter.py].
    Python [int] is [Z], [str] is [string], [Optional[T]] is [option T],
    a [list] is a [list].  The registries of the engine (counters,
    adapters, templates, table rows by primary key) are [gmap]s; a
    dictionary that travels as data (metadata, the output of [to_dict])
    is an association list in insertion order.  Code that may raise
    returns a [result]; mutation of a message, an engine or a store is
    a function to the new value. *)

From Stdlib Require Import ZArith QArith Qminmax Lia Lqa DecimalString Ascii.
From stdpp Require Import base option list gmap strings.

Local Open Scope string_scope.
Local Open Scope list_scope.
Local Open Scope Z_scope.

(** ** Python building blocks *)

(** [str(n)] for a Python [int]. *)
Definition str_of_int (n : Z) : string :=
  NilZero.string_of_int (Z.to_int n).

(** Exceptions derived from Python's [Exception], by class and message.
    [IllTyped] marks a dynamic value that the declared field types of a
    dataclass cannot hold. *)
Inductive Exception :=
| KeyError (key : string)
| ValueError (msg : string)
| TypeError (msg : string)
| TemplateNotFound (name : string)
| RuntimeError (msg : string)
| IllTyped (field : string).

(** [str(e)] as used in the f-strings of the engine. *)
Definition str_of_exc (e : Exception) : string :=
  match e with
  | KeyError k => "'" +:+ k +:+ "'"
  | ValueError s | TypeError s | TemplateNotFound s | RuntimeError s => s
  | IllTyped f => f
  end.

(** A computation that returns or raises. *)
Inductive result (A : Type) :=
| Ok (a : A)
| Raise (e : Exception).
Arguments Ok {A} a.
Arguments Raise {A} e.

#[global] Instance result_ret : MRet result := fun A a => Ok a.
#[global] Instance result_bind : MBind result := fun A B f r =>
  match r with
  | Ok a => f a
  | Raise e => Raise e
  end.

(** Dynamically typed values as they occur in message dictionaries. *)
#[local] Set Warnings "-register-all".
Inductive Value :=
| VNone
| VBool (b : bool)
| VInt (n : Z)
| VStr (s : string)
| VBytes (b : list Byte.byte)
| VList (l : list Value)
| VDict (d : list (string * Value)).

(** A dictionary literal keeps its keys in insertion order. *)
Definition Dict := list (string * Value).

(** [d.get(k)]: the value stored under [k], if any. *)
Fixpoint dict_get (d : Dict) (k : string) : option Value :=
  match d with
  | [] => None
  | (k', v) :: d' => if String.eqb k' k then Some v else dict_get d' k
  end.

(** [d.get(k, dflt)]. *)
Definition dict_get_default (d : Dict) (k : string) (dflt : Value) : Value :=
  default dflt (dict_get d k).

(** [d[k]], raising [KeyError] when the key is absent. *)
Definition dict_index (d : Dict) (k : string) : result Value :=
  match dict_get d k with
  | Some v => Ok v
  | None => Raise (KeyError k)
  end.

(** Readers of a dynamic value at a declared field type. *)
Definition as_str (field : string) (v : Value) : result string :=
  match v with VStr s => Ok s | _ => Raise (IllTyped field) end.

Definition as_opt_str (field : string) (v : Value) : result (option string) :=
  match v with
  | VNone => Ok None
  | VStr s => Ok (Some s)
  | _ => Raise (IllTyped field)
  end.

Definition as_int (field : string) (v : Value) : result Z :=
  match v with VInt n => Ok n | _ => Raise (IllTyped field) end.

Definition as_dict (field : string) (v : Value) : result Dict :=
  match v with VDict d => Ok d | _ => Raise (IllTyped field) end.

Definition as_opt_bytes (field : string) (v : Value)
  : result (option (list Byte.byte)) :=
  match v with
  | VNone => Ok None
  | VBytes b => Ok (Some b)
  | _ => Raise (IllTyped field)
  end.

(** A [datetime], identified by its ISO-8601 rendering. *)
Record datetime := mk_datetime { isoformat : string }.

(** ** gateway/models.py *)
Module Models.

Inductive ChannelType :=
| TELEGRAM | WHATSAPP | DISCORD | SLACK | EMAIL | WEBHOOK.

Inductive MessageStatus :=
| PENDING | SENDING | SENT | DELIVERED | FAILED | RETRYING | DEAD.

Inductive MessagePriority := LOW | NORMAL | HIGH | CRITICAL.

(** The [.value] of each enum member. *)
Definition channel_value (c : ChannelType) : string :=
  match c with
  | TELEGRAM => "telegram" | WHATSAPP => "whatsapp" | DISCORD => "discord"
  | SLACK => "slack" | EMAIL => "email" | WEBHOOK => "webhook"
  end.

Definition status_value (s : MessageStatus) : string :=
  match s with
  | PENDING => "pending" | SENDING => "sending" | SENT => "sent"
  | DELIVERED => "delivered" | FAILED => "failed"
  | RETRYING => "retrying" | DEAD => "dead"
  end.

Definition priority_value (p : MessagePriority) : Z :=
  match p with LOW => 0 | NORMAL => 5 | HIGH => 8 | CRITICAL => 10 end.

Definition all_channels : list ChannelType :=
  [TELEGRAM; WHATSAPP; DISCORD; SLACK; EMAIL; WEBHOOK].
Definition all_statuses : list MessageStatus :=
  [PENDING; SENDING; SENT; DELIVERED; FAILED; RETRYING; DEAD].
Definition all_priorities : list MessagePriority :=
  [LOW; NORMAL; HIGH; CRITICAL].

(** The member-by-value lookups [ChannelType(v)], [MessageStatus(v)],
    [MessagePriority(v)]; a value that names no member is a
    [ValueError]. *)
Definition ChannelType_of (v : Value) : result ChannelType :=
  match v with
  | VStr s =>
      match find (fun c => String.eqb (channel_value c) s) all_channels with
      | Some c => Ok c
      | None => Raise (ValueError (s +:+ " is not a valid ChannelType"))
      end
  | _ => Raise (ValueError "not a valid ChannelType")
  end.

Definition MessageStatus_of (v : Value) : result MessageStatus :=
  match v with
  | VStr s =>
      match find (fun c => String.eqb (status_value c) s) all_statuses with
      | Some c => Ok c
      | None => Raise (ValueError (s +:+ " is not a valid MessageStatus"))
      end
  | _ => Raise (ValueError "not a valid MessageStatus")
  end.

Definition priority_of_int (n : Z) : result MessagePriority :=
  match find (fun p => Z.eqb (priority_value p) n) all_priorities with
  | Some p => Ok p
  | None =>
      Raise (ValueError (str_of_int n +:+ " is not a valid MessagePriority"))
  end.

Definition MessagePriority_of (v : Value) : result MessagePriority :=
  match v with
  | VInt n => priority_of_int n
  | VBool b => priority_of_int (if b then 1 else 0)
  | _ => Raise (ValueError "not a valid MessagePriority")
  end.

Record Attachment := mk_Attachment {
  filename : string;
  content_type : string;
  url : option string;
  data : option (list Byte.byte);
  size : Z
}.

Definition opt_str_value (o : option string) : Value :=
  match o with Some s => VStr s | None => VNone end.

Definition Attachment_to_dict (a : Attachment) : Dict :=
  [ ("filename", VStr (filename a));
    ("content_type", VStr (content_type a));
    ("url", opt_str_value (url a));
    ("size", VInt (size a)) ].

(** The keyword-unpacking constructor call of [from_dict]: the
    generated constructor takes the five field names as keywords,
    [filename] and [content_type] being required. *)
Definition attachment_fields : list string :=
  ["filename"; "content_type"; "url"; "data"; "size"].

Definition Attachment_of_kwargs (v : Value) : result Attachment :=
  match v with
  | VDict a =>
      match find (fun kv => negb (bool_decide (kv.1 ∈ attachment_fields))) a with
      | Some kv => Raise (TypeError ("unexpected keyword argument " +:+ kv.1))
      | None =>
          match dict_get a "filename", dict_get a "content_type" with
          | Some fn, Some ct =>
              fn' ← as_str "filename" fn;
              ct' ← as_str "content_type" ct;
              url' ← as_opt_str "url" (dict_get_default a "url" VNone);
              data' ← as_opt_bytes "data" (dict_get_default a "data" VNone);
              size' ← as_int "size" (dict_get_default a "size" (VInt 0));
              Ok (mk_Attachment fn' ct' url' data' size')
          | _, _ => Raise (TypeError "missing required positional argument")
          end
      end
  | _ => Raise (TypeError "argument after ** must be a mapping")
  end.

Record Message := mk_Message {
  from_channel : ChannelType;
  to_channel : ChannelType;
  content : string;
  target : string;
  id : string;
  attachments : list Attachment;
  metadata : Dict;
  priority : MessagePriority;
  status : MessageStatus;
  template : option string;
  template_vars : Dict;
  created_at : datetime;
  sent_at : option datetime;
  retry_count : Z;
  max_retries : Z;
  last_error : option string
}.

Definition to_dict (m : Message) : Dict :=
  [ ("id", VStr (id m));
    ("from_channel", VStr (channel_value (from_channel m)));
    ("to_channel", VStr (channel_value (to_channel m)));
    ("content", VStr (content m));
    ("target", VStr (target m));
    ("attachments", VList (map (fun a => VDict (Attachment_to_dict a)) (attachments m)));
    ("metadata", VDict (metadata m));
    ("priority", VInt (priority_value (priority m)));
    ("status", VStr (status_value (status m)));
    ("template", opt_str_value (template m));
    ("created_at", VStr (isoformat (created_at m)));
    ("sent_at", match sent_at m with
                | Some t => VStr (isoformat t)
                | None => VNone
                end);
    ("retry_count", VInt (retry_count m));
    ("last_error", opt_str_value (last_error m)) ].

(** The list comprehension over [data.get("attachments", [])]. *)
Fixpoint build_attachments (l : list Value) : result (list Attachment) :=
  match l with
  | [] => Ok []
  | v :: l' =>
      a ← Attachment_of_kwargs v;
      rest ← build_attachments l';
      Ok (a :: rest)
  end.

(** [Message.from_dict(data)].  [now] is the reading of
    [datetime.utcnow()] taken by the [created_at] default factory and
    [fresh] the [str(uuid.uuid4())] computed for the [id] default. *)
Definition from_dict (now : datetime) (fresh : string) (data : Dict)
  : result Message :=
  atts ← match dict_get_default data "attachments" (VList []) with
         | VList l => build_attachments l
         | _ => Raise (IllTyped "attachments")
         end;
  id' ← as_str "id" (dict_get_default data "id" (VStr fresh));
  fc ← dict_index data "from_channel" ≫= ChannelType_of;
  tc ← dict_index data "to_channel" ≫= ChannelType_of;
  content' ← as_str "content" (dict_get_default data "content" (VStr ""));
  target' ← as_str "target" (dict_get_default data "target" (VStr ""));
  metadata' ← as_dict "metadata" (dict_get_default data "metadata" (VDict []));
  priority' ← MessagePriority_of (dict_get_default data "priority" (VInt 5));
  status' ← MessageStatus_of (dict_get_default data "status" (VStr "pending"));
  template' ← as_opt_str "template" (dict_get_default data "template" VNone);
  tvars ← as_dict "template_vars" (dict_get_default data "template_vars" (VDict []));
  rc ← as_int "retry_count" (dict_get_default data "retry_count" (VInt 0));
  mr ← as_int "max_retries" (dict_get_default data "max_retries" (VInt 3));
  le ← as_opt_str "last_error" (dict_get_default data "last_error" VNone);
  Ok {| from_channel := fc; to_channel := tc; content := content';
        target := target'; id := id'; attachments := atts;
        metadata := metadata'; priority := priority'; status := status';
        template := template'; template_vars := tvars;
        created_at := now; sent_at := None;
        retry_count := rc; max_retries := mr; last_error := le |}.

Record SendResult := mk_SendResult {
  success : bool;
  message_id : string;
  channel : ChannelType;
  response : option Dict;
  error : option string;
  sr_retry_count : Z
}.

End Models.

(** ** gateway/router.py *)
Module Router.
Import Models.

#[global] Instance ChannelType_eq_dec : EqDecision ChannelType.
Proof. solve_decision. Defined.

Definition channel_code (c : ChannelType) : nat :=
  match c with
  | TELEGRAM => 0 | WHATSAPP => 1 | DISCORD => 2
  | SLACK => 3 | EMAIL => 4 | WEBHOOK => 5
  end%nat.

Definition channel_of_code (n : nat) : ChannelType :=
  match n with
  | 0 => TELEGRAM | 1 => WHATSAPP | 2 => DISCORD
  | 3 => SLACK | 4 => EMAIL | _ => WEBHOOK
  end%nat.

#[global] Instance ChannelType_countable : Countable ChannelType.
Proof.
  refine (inj_countable' channel_code channel_of_code _).
  intros c; destruct c; reflexivity.
Defined.

(** A rule.  [condition] and [transform] are caller-supplied callables:
    each either returns or raises an [Exception]. *)
Record RoutingRule := mk_RoutingRule {
  name : string;
  condition : Message -> result bool;
  target_channel : ChannelType;
  priority : Z;
  transform : option (Message -> result Message);
  enabled : bool
}.

Definition matches (r : RoutingRule) (message : Message) : bool :=
  if negb (enabled r) then false
  else match condition r message with
       | Ok b => b
       | Raise _ => false
       end.

Record DeadLetterEntry := mk_DeadLetterEntry {
  dl_message : Message;
  dl_error : string;
  failed_at : datetime;
  dl_retry_count : Z
}.

Definition DeadLetterEntry_to_dict (dl : DeadLetterEntry) : Dict :=
  [ ("message", VDict (to_dict (dl_message dl)));
    ("error", VStr (dl_error dl));
    ("failed_at", VStr (isoformat (failed_at dl)));
    ("retry_count", VInt (dl_retry_count dl)) ].

(** The [defaultdict(int)] of counters: a missing key reads as zero. *)
Definition stat (st : gmap string Z) (key : string) : Z :=
  default 0 (st !! key).

Definition incr (key : string) (st : gmap string Z) : gmap string Z :=
  <[key := stat st key + 1]> st.

(** Field updates on a message. *)
Definition set_attempt (m : Message) (attempt : Z) : Message :=
  {| from_channel := from_channel m; to_channel := to_channel m;
     content := content m; target := target m; id := id m;
     attachments := attachments m; metadata := metadata m;
     Models.priority := Models.priority m;
     status := if attempt =? 0 then SENDING else RETRYING;
     template := template m; template_vars := template_vars m;
     created_at := created_at m; sent_at := sent_at m;
     retry_count := attempt; max_retries := max_retries m;
     last_error := last_error m |}.

Definition set_sent (m : Message) (now : datetime) : Message :=
  {| from_channel := from_channel m; to_channel := to_channel m;
     content := content m; target := target m; id := id m;
     attachments := attachments m; metadata := metadata m;
     Models.priority := Models.priority m;
     status := SENT;
     template := template m; template_vars := template_vars m;
     created_at := created_at m; sent_at := Some now;
     retry_count := retry_count m; max_retries := max_retries m;
     last_error := last_error m |}.

Definition set_dead (m : Message) (err : string) : Message :=
  {| from_channel := from_channel m; to_channel := to_channel m;
     content := content m; target := target m; id := id m;
     attachments := attachments m; metadata := metadata m;
     Models.priority := Models.priority m;
     status := DEAD;
     template := template m; template_vars := template_vars m;
     created_at := created_at m; sent_at := sent_at m;
     retry_count := retry_count m; max_retries := max_retries m;
     last_error := Some err |}.

Definition set_pending (m : Message) : Message :=
  {| from_channel := from_channel m; to_channel := to_channel m;
     content := content m; target := target m; id := id m;
     attachments := attachments m; metadata := metadata m;
     Models.priority := Models.priority m;
     status := PENDING;
     template := template m; template_vars := template_vars m;
     created_at := created_at m; sent_at := sent_at m;
     retry_count := 0; max_retries := max_retries m;
     last_error := last_error m |}.

Definition set_result_retry_count (r : SendResult) (attempt : Z) : SendResult :=
  {| success := success r; message_id := message_id r;
     channel := channel r; response := response r; error := error r;
     sr_retry_count := attempt |}.

(** [result.error or "Unknown error"]. *)
Definition error_or_unknown (r : SendResult) : string :=
  match error r with
  | Some e => if String.eqb e "" then "Unknown error" else e
  | None => "Unknown error"
  end.

(** The stable sort of [add_rule]: descending by priority, rules of
    equal priority keeping the order they had in the list. *)
Fixpoint insert_rule (r : RoutingRule) (l : list RoutingRule)
  : list RoutingRule :=
  match l with
  | [] => [r]
  | x :: l' =>
      if priority r <? priority x then x :: insert_rule r l'
      else r :: x :: l'
  end.

Definition sort_rules (l : list RoutingRule) : list RoutingRule :=
  foldr insert_rule [] l.

Section Engine.
(** Everything outside the process that an adapter talks to. *)
Context {World : Type}.

(** [handler.send(message)]: returns a [SendResult] or raises, and
    may change the outside world. *)
Definition Handler := World -> Message -> result SendResult * World.

Record RoutingEngine := mk_RoutingEngine {
  rules : list RoutingRule;
  max_retries : Z;
  retry_delay : Q;
  dead_letter_queue : list DeadLetterEntry;
  _channel_handlers : gmap ChannelType Handler;
  _stats : gmap string Z;
  _middleware : list (Message -> result Message)
}.

Definition init (max_retries : Z) (retry_delay : Q) : RoutingEngine :=
  mk_RoutingEngine [] max_retries retry_delay [] ∅ ∅ [].

Definition set_rules (e : RoutingEngine) (rs : list RoutingRule) :=
  mk_RoutingEngine rs (max_retries e) (retry_delay e)
    (dead_letter_queue e) (_channel_handlers e) (_stats e) (_middleware e).

Definition set_dlq (e : RoutingEngine) (q : list DeadLetterEntry) :=
  mk_RoutingEngine (rules e) (max_retries e) (retry_delay e)
    q (_channel_handlers e) (_stats e) (_middleware e).

Definition set_stats (e : RoutingEngine) (st : gmap string Z) :=
  mk_RoutingEngine (rules e) (max_retries e) (retry_delay e)
    (dead_letter_queue e) (_channel_handlers e) st (_middleware e).

Definition register_channel (channel_type : ChannelType) (handler : Handler)
    (e : RoutingEngine) : RoutingEngine :=
  mk_RoutingEngine (rules e) (max_retries e) (retry_delay e)
    (dead_letter_queue e) (<[channel_type := handler]> (_channel_handlers e))
    (_stats e) (_middleware e).

Definition add_rule (rule : RoutingRule) (e : RoutingEngine) : RoutingEngine :=
  set_rules e (sort_rules (rules e ++ [rule])).

Definition remove_rule (nm : string) (e : RoutingEngine)
  : bool * RoutingEngine :=
  let kept := filter (fun r => name r ≠ nm) (rules e) in
  (bool_decide (length kept < length (rules e))%nat, set_rules e kept).

Definition add_middleware (fn : Message -> result Message)
    (e : RoutingEngine) : RoutingEngine :=
  mk_RoutingEngine (rules e) (max_retries e) (retry_delay e)
    (dead_letter_queue e) (_channel_handlers e) (_stats e)
    (_middleware e ++ [fn]).

Definition match_rule (e : RoutingEngine) (message : Message)
  : option RoutingRule :=
  find (fun r => matches r message) (rules e).

Definition match_all_rules (e : RoutingEngine) (message : Message)
  : list RoutingRule :=
  List.filter (fun r => matches r message) (rules e).

Fixpoint _apply_middleware (mws : list (Message -> result Message))
    (message : Message) : result Message :=
  match mws with
  | [] => Ok message
  | mw :: rest => mw message ≫= _apply_middleware rest
  end.

(** How the retry loop of [_send_with_retry] is left. *)
Inductive LoopExit :=
| Delivered (res : SendResult) (m : Message)
| Exhausted (last_error : string) (m : Message).

(** The state of one dispatch: the loop exit, the counters, the
    outside world and the delays slept so far. *)
Record LoopState := mk_LoopState {
  ls_exit : LoopExit;
  ls_stats : gmap string Z;
  ls_world : World;
  ls_sleeps : list Q
}.

(** [for attempt in range(max_attempts + 1)], entered at [attempt]
    with [n] iterations left. *)
Fixpoint retry_loop (n : nat) (attempt max_attempts : Z) (delay : Q)
    (handler : Handler) (ch : ChannelType) (now : datetime)
    (message : Message) (last_error : string)
    (st : gmap string Z) (w : World) (sleeps : list Q) : LoopState :=
  match n with
  | O => mk_LoopState (Exhausted last_error message) st w sleeps
  | S n' =>
      let message := set_attempt message attempt in
      let '(r, w) := handler w message in
      let failed (last_error : string) :=
        let sleeps :=
          if attempt <? max_attempts
          then (sleeps ++ [(delay * inject_Z (2 ^ attempt))%Q])%list
          else sleeps in
        retry_loop n' (attempt + 1) max_attempts delay handler ch now
          message last_error st w sleeps in
      match r with
      | Ok res =>
          if success res then
            mk_LoopState
              (Delivered (set_result_retry_count res attempt)
                 (set_sent message now))
              (incr ("sent:" +:+ channel_value ch) (incr "sent" st))
              w sleeps
          else failed (error_or_unknown res)
      | Raise e => failed (str_of_exc e)
      end
  end.

(** What a dispatch leaves behind: the value returned or the
    exception that escaped, the message as last bound, the engine,
    the world and the delays slept. *)
Record Dispatch := mk_Dispatch {
  d_result : result SendResult;
  d_message : Message;
  d_engine : RoutingEngine;
  d_world : World;
  d_sleeps : list Q
}.

(** [message.max_retries or self.max_retries]. *)
Definition retry_budget (e : RoutingEngine) (message : Message) : Z :=
  if Models.max_retries message =? 0 then max_retries e
  else Models.max_retries message.

Definition all_failed_error (max_attempts : Z) (last_error : string)
  : string :=
  "All " +:+ str_of_int (max_attempts + 1) +:+ " attempts failed: "
    +:+ last_error.

Definition _send_with_retry (e : RoutingEngine) (w : World)
    (now : datetime) (handler : Handler) (message : Message)
    (ch : ChannelType) : Dispatch :=
  let max_attempts := retry_budget e message in
  let ls := retry_loop (Z.to_nat (max_attempts + 1)) 0 max_attempts
              (retry_delay e) handler ch now message "" (_stats e) w [] in
  match ls_exit ls with
  | Delivered res m =>
      mk_Dispatch (Ok res) m (set_stats e (ls_stats ls))
        (ls_world ls) (ls_sleeps ls)
  | Exhausted last_error m =>
      let m := set_dead m last_error in
      let st := incr "errors" (incr "dead" (ls_stats ls)) in
      let entry := mk_DeadLetterEntry m last_error now max_attempts in
      mk_Dispatch
        (Ok (mk_SendResult false (id m) ch None
               (Some (all_failed_error max_attempts last_error))
               max_attempts))
        m
        (set_dlq (set_stats e st) (dead_letter_queue e ++ [entry]))
        (ls_world ls) (ls_sleeps ls)
  end.

Definition no_handler_error (ch : ChannelType) : string :=
  "No handler for channel: " +:+ channel_value ch.

(** The second half of [route]: look the adapter up and send. *)
Definition deliver (e : RoutingEngine) (w : World) (now : datetime)
    (message : Message) (target_channel : ChannelType) : Dispatch :=
  match _channel_handlers e !! target_channel with
  | None =>
      mk_Dispatch
        (Ok (mk_SendResult false (id message) target_channel None
               (Some (no_handler_error target_channel)) 0))
        message (set_stats e (incr "errors" (_stats e))) w []
  | Some handler => _send_with_retry e w now handler message target_channel
  end.

Definition route (e : RoutingEngine) (w : World) (now : datetime)
    (message : Message) : Dispatch :=
  let e := set_stats e (incr "total" (_stats e)) in
  match _apply_middleware (_middleware e) message with
  | Raise exc => mk_Dispatch (Raise exc) message e w []
  | Ok message =>
      match match_rule e message with
      | Some rule =>
          match transform rule with
          | Some f =>
              match f message with
              | Ok message => deliver e w now message (target_channel rule)
              | Raise exc => mk_Dispatch (Raise exc) message e w []
              end
          | None => deliver e w now message (target_channel rule)
          end
      | None => deliver e w now message (to_channel message)
      end
  end.

(** The slice [l[-limit:]]: the last [limit] items for a positive
    [limit], the whole list for zero, and the items from position
    [-limit] on for a negative one. *)
Definition last_slice {A} (l : list A) (limit : Z) : list A :=
  if 0 <? limit then drop (length l - Z.to_nat limit)%nat l
  else drop (Z.to_nat (- limit)) l.

Definition get_dead_letters (e : RoutingEngine) (limit : Z) : list Dict :=
  map DeadLetterEntry_to_dict (last_slice (dead_letter_queue e) limit).

Definition clear_dead_letters (e : RoutingEngine) : nat * RoutingEngine :=
  (length (dead_letter_queue e), set_dlq e []).

(** [retry_dead_letter(index)]: [None] when the index is out of
    range, else the dispatch of the popped entry. *)
Definition retry_dead_letter (e : RoutingEngine) (w : World)
    (now : datetime) (index : Z) : option Dispatch :=
  if (0 <=? index) && (index <? Z.of_nat (length (dead_letter_queue e)))
  then
    match dead_letter_queue e !! Z.to_nat index with
    | Some entry =>
        Some (route (set_dlq e (delete (Z.to_nat index) (dead_letter_queue e)))
                w now (set_pending (dl_message entry)))
    | None => None
    end
  else None.

(** The [stats] property, restricted to its integer counters. *)
Definition stats_total (e : RoutingEngine) : Z := stat (_stats e) "total".
Definition stats_sent (e : RoutingEngine) : Z := stat (_stats e) "sent".
Definition stats_errors (e : RoutingEngine) : Z := stat (_stats e) "errors".
Definition stats_dead_letters (e : RoutingEngine) : nat :=
  length (dead_letter_queue e).

End Engine.
Arguments RoutingEngine : clear implicits.
Arguments Handler : clear implicits.
Arguments Dispatch : clear implicits.
Arguments LoopState : clear implicits.
End Router.

(** ** gateway/templates.py *)
Module Templates.

(** The memory namespace and, when the template directory exists, the
    files it holds by name. *)
Record TemplateEngine := mk_TemplateEngine {
  _string_templates : gmap string string;
  _file_env : option (gmap string string)
}.

Definition register (name template_str : string) (te : TemplateEngine)
  : TemplateEngine :=
  mk_TemplateEngine (<[name := template_str]> (_string_templates te))
    (_file_env te).

Definition unregister (name : string) (te : TemplateEngine)
  : bool * TemplateEngine :=
  match _string_templates te !! name with
  | Some _ =>
      (true, mk_TemplateEngine (delete name (_string_templates te))
               (_file_env te))
  | None => (false, te)
  end.

Section Render.
(** Jinja2's compilation and rendering of a template source with a
    variable mapping (autoescape off): it returns the rendered text
    or raises.  An environment is taken to load the source
    that its loader holds under the name when the template is asked
    for; its cache of compiled templates is not part of the model. *)
Variable jinja_render : string -> Dict -> result string.

Definition render (te : TemplateEngine) (template_name : string)
    (variables : Dict) : result string :=
  match _string_templates te !! template_name with
  | Some src => jinja_render src variables
  | None =>
      match _file_env te with
      | Some files =>
          match files !! template_name with
          | Some src =>
              match jinja_render src variables with
              | Raise (TemplateNotFound _) =>
                  Raise (TemplateNotFound template_name)
              | r => r
              end
          | None => Raise (TemplateNotFound template_name)
          end
      | None => Raise (TemplateNotFound template_name)
      end
  end.

(** [render_string]: a fresh environment renders the given source. *)
Definition render_string (template_str : string) (variables : Dict)
  : result string :=
  jinja_render template_str variables.

(** Jinja2's loading of a template source by [get_template], which
    compiles it: it returns or raises. *)
Variable jinja_compile : string -> result unit.

Definition has_template (te : TemplateEngine) (name : string)
  : result bool :=
  match _string_templates te !! name with
  | Some _ => Ok true
  | None =>
      match _file_env te with
      | Some files =>
          match files !! name with
          | Some src =>
              match jinja_compile src with
              | Ok _ => Ok true
              | Raise (TemplateNotFound _) => Ok false
              | Raise e => Raise e
              end
          | None => Ok false
          end
      | None => Ok false
      end
  end.
End Render.

End Templates.

(** ** gateway/core.py *)
Module Core.
Import Models.

Section Gateway.
Context {World : Type}.
Variable jinja_render : string -> Dict -> result string.

Record Gateway := mk_Gateway {
  channels : gmap ChannelType (Router.Handler World);
  router : Router.RoutingEngine World;
  template_engine : Templates.TemplateEngine
}.

Definition register_channel (channel_type : ChannelType)
    (channel : Router.Handler World) (g : Gateway) : Gateway :=
  mk_Gateway (<[channel_type := channel]> (channels g))
    (Router.register_channel channel_type channel (router g))
    (template_engine g).

Definition add_rule (rule : Router.RoutingRule) (g : Gateway) : Gateway :=
  mk_Gateway (channels g) (Router.add_rule rule (router g))
    (template_engine g).

Definition register_template (name template_str : string) (g : Gateway)
  : Gateway :=
  mk_Gateway (channels g) (router g)
    (Templates.register name template_str (template_engine g)).

Definition set_content (m : Message) (c : string) : Message :=
  {| from_channel := from_channel m; to_channel := to_channel m;
     content := c; target := target m; id := id m;
     attachments := attachments m; metadata := metadata m;
     priority := priority m; status := status m;
     template := template m; template_vars := template_vars m;
     created_at := created_at m; sent_at := sent_at m;
     retry_count := retry_count m; max_retries := max_retries m;
     last_error := last_error m |}.

Definition template_error (e : Exception) : string :=
  "Template render failed: " +:+ str_of_exc e.

(** [if message.template:] holds for a non-empty name. *)
Definition template_set (m : Message) : option string :=
  match template m with
  | Some t => if String.eqb t "" then None else Some t
  | None => None
  end.

Definition send (g : Gateway) (w : World) (now : datetime)
    (message : Message) : Router.Dispatch World :=
  match template_set message with
  | Some t =>
      match Templates.render jinja_render (template_engine g) t
              (template_vars message) with
      | Ok text => Router.route (router g) w now (set_content message text)
      | Raise e =>
          Router.mk_Dispatch
            (Ok (mk_SendResult false (id message) (to_channel message)
                   None (Some (template_error e)) 0))
            message (router g) w []
      end
  | None => Router.route (router g) w now message
  end.
(** [Message(...)] as [broadcast] builds it, the other fields taking
    the dataclass defaults: [fresh] is the uuid drawn for the id and
    [created] the clock read for created_at. *)
Definition new_message (fresh : string) (created : datetime)
    (to : ChannelType) (text target : string) (meta : Dict)
    (prio : MessagePriority) : Message :=
  {| from_channel := WEBHOOK; to_channel := to;
     content := text; target := target; id := fresh;
     attachments := []; metadata := meta;
     priority := prio; status := PENDING;
     template := None; template_vars := [];
     created_at := created; sent_at := None;
     retry_count := 0; max_retries := 3; last_error := None |}.

(** What the loop of [broadcast] reads for the k-th message it builds:
    the uuid, the clock at creation and the clock during dispatch. *)
Record Stamp := mk_Stamp {
  fresh_id : string;
  created : datetime;
  dispatched : datetime
}.

(** What [broadcast] leaves behind: the results or the exception that
    escaped a dispatch, the gateway and the world. *)
Record Broadcast := mk_Broadcast {
  b_results : result (list SendResult);
  b_gateway : Gateway;
  b_world : World
}.

Definition set_router (g : Gateway) (r : Router.RoutingEngine World)
  : Gateway :=
  mk_Gateway (channels g) r (template_engine g).

(** The loop of [broadcast] over the channels left, [k] messages
    having been built and [results] collected so far. *)
Fixpoint broadcast_loop (chs : list ChannelType) (stamps : nat -> Stamp)
    (k : nat) (text : string) (targets : gmap string string) (meta : Dict)
    (prio : MessagePriority) (g : Gateway) (w : World)
    (results : list SendResult) : Broadcast :=
  match chs with
  | [] => mk_Broadcast (Ok results) g w
  | ch :: rest =>
      let target := default "" (targets !! channel_value ch) in
      if String.eqb target "" then
        broadcast_loop rest stamps k text targets meta prio g w results
      else
        let msg := new_message (fresh_id (stamps k)) (created (stamps k))
                     ch text target meta prio in
        let d := send g w (dispatched (stamps k)) msg in
        let g := set_router g (Router.d_engine d) in
        match Router.d_result d with
        | Ok r =>
            broadcast_loop rest stamps (S k) text targets meta prio g
              (Router.d_world d) (results ++ [r])
        | Raise exc => mk_Broadcast (Raise exc) g (Router.d_world d)
        end
  end.

(** [broadcast(content, channels, targets, metadata, priority)]. *)
Definition broadcast (stamps : nat -> Stamp) (text : string)
    (chs : list ChannelType) (targets : gmap string string)
    (meta : option Dict) (prio : MessagePriority) (g : Gateway) (w : World)
  : Broadcast :=
  broadcast_loop chs stamps 0 text targets (default [] meta) prio g w [].
End Gateway.
Arguments Gateway : clear implicits.
Arguments Broadcast : clear implicits.

End Core.

(** ** gateway/store.py *)
Module Store.

(** A row of table [messages]; a nullable column is an [option]. *)
Record MessageRow := mk_MessageRow {
  id : string;
  from_channel : string;
  to_channel : string;
  content : option string;
  target : string;
  template : option string;
  template_vars : option string;
  metadata : option string;
  priority : option Z;
  status : option string;
  retry_count : option Z;
  max_retries : option Z;
  last_error : option string;
  created_at : string;
  sent_at : option string;
  updated_at : option string
}.

Record EventRow := mk_EventRow {
  ev_message_id : string;
  event : string;
  ev_channel : option string;
  details : option string;
  timestamp : string
}.

Record ScheduledRow := mk_ScheduledRow {
  message_data : string;
  scheduled_at : string;
  sched_status : option string;
  executed_at : option string;
  sched_result : option string;
  sched_created_at : string
}.

(** The database file: [messages] and [scheduled_messages] keyed by
    their primary key, [delivery_events] in rowid order. *)
Record MessageStore := mk_MessageStore {
  messages : gmap string MessageRow;
  delivery_events : list EventRow;
  scheduled_messages : gmap string ScheduledRow
}.

(** SQL [COALESCE(a, b)]. *)
Definition COALESCE {A} (a b : option A) : option A :=
  match a with Some _ => a | None => b end.

(** [if error:] holds for a non-empty string. *)
Definition truthy (error : option string) : bool :=
  match error with
  | Some e => negb (String.eqb e "")
  | None => false
  end.

(** The [SET] clauses of the two [UPDATE] statements. *)
Definition set_status_error (status : string) (error : option string)
    (now : string) (r : MessageRow) : MessageRow :=
  mk_MessageRow (id r) (from_channel r) (to_channel r) (content r)
    (target r) (template r) (template_vars r) (metadata r) (priority r)
    (Some status) (retry_count r) (max_retries r) error
    (created_at r) (sent_at r) (Some now).

Definition set_status_sent_at (status : string) (sent_at' : option string)
    (now : string) (r : MessageRow) : MessageRow :=
  mk_MessageRow (id r) (from_channel r) (to_channel r) (content r)
    (target r) (template r) (template_vars r) (metadata r) (priority r)
    (Some status) (retry_count r) (max_retries r) (last_error r)
    (created_at r) (COALESCE sent_at' (sent_at r)) (Some now).

(** [update_status(message_id, status, error)], [now] being the
    reading of [datetime.utcnow().isoformat()]. *)
Definition update_status (now : string) (message_id status : string)
    (error : option string) (s : MessageStore) : MessageStore :=
  if truthy error then
    mk_MessageStore
      (alter (set_status_error status error now) message_id (messages s))
      (delivery_events s) (scheduled_messages s)
  else
    let sent_at' := if String.eqb status "sent" then Some now else None in
    mk_MessageStore
      (alter (set_status_sent_at status sent_at' now) message_id (messages s))
      (delivery_events s) (scheduled_messages s).

(** How a statement of the store ends: done, an exception of the
    Python side, or a constraint of the schema refused by SQLite, which
    [sqlite3] raises as [IntegrityError]; in the last two cases the
    transaction is rolled back and the store is as before. *)
Inductive outcome (A : Type) :=
| Done (a : A)
| Failed (e : Exception)
| IntegrityError (msg : string).
Arguments Done {A} a.
Arguments Failed {A} e.
Arguments IntegrityError {A} msg.

#[global] Instance outcome_ret : MRet outcome := fun A a => Done a.
#[global] Instance outcome_bind : MBind outcome := fun A B f o =>
  match o with
  | Done a => f a
  | Failed e => Failed e
  | IntegrityError msg => IntegrityError msg
  end.

Definition of_result {A} (r : result A) : outcome A :=
  match r with
  | Ok a => Done a
  | Raise e => Failed e
  end.

(** [log_event]: the connection runs with [PRAGMA foreign_keys=ON], so
    an event needs its message to be in [messages]. *)
Definition log_event (now : string) (message_id event : string)
    (channel details : option string) (s : MessageStore)
  : outcome MessageStore :=
  match messages s !! message_id with
  | Some _ =>
      Done (mk_MessageStore (messages s)
              (delivery_events s
                 ++ [mk_EventRow message_id event channel details now])
              (scheduled_messages s))
  | None => IntegrityError "FOREIGN KEY constraint failed"
  end.

Definition get_message (s : MessageStore) (message_id : string)
  : option MessageRow :=
  messages s !! message_id.

(** Binding a value of a message dictionary to a column of its
    declared type. *)
Definition text_not_null (col : string) (v : Value) : outcome string :=
  match v with
  | VStr s => Done s
  | VNone => IntegrityError ("NOT NULL constraint failed: messages." +:+ col)
  | _ => Failed (IllTyped col)
  end.

Definition text_null (col : string) (v : Value) : outcome (option string) :=
  match v with
  | VStr s => Done (Some s)
  | VNone => Done None
  | _ => Failed (IllTyped col)
  end.

Definition int_null (col : string) (v : Value) : outcome (option Z) :=
  match v with
  | VInt n => Done (Some n)
  | VBool b => Done (Some (if b then 1 else 0))
  | VNone => Done None
  | _ => Failed (IllTyped col)
  end.

Section Save.
(** [json.dumps] on a value: the text, or a [TypeError]. *)
Variable json_dumps : Value -> result string.

(** [save_message(msg_dict)], an [INSERT OR REPLACE] keyed by the id;
    [now] is the reading of [datetime.utcnow().isoformat()]. *)
Definition save_message (now : string) (msg_dict : Dict) (s : MessageStore)
  : outcome MessageStore :=
  id_v ← of_result (dict_index msg_dict "id");
  tv ← of_result
         (json_dumps (dict_get_default msg_dict "template_vars" (VDict [])));
  md ← of_result
         (json_dumps (dict_get_default msg_dict "metadata" (VDict [])));
  id' ← of_result (as_str "id" id_v);
  fc ← text_not_null "from_channel"
         (dict_get_default msg_dict "from_channel" (VStr ""));
  tc ← text_not_null "to_channel"
         (dict_get_default msg_dict "to_channel" (VStr ""));
  ct ← text_null "content" (dict_get_default msg_dict "content" (VStr ""));
  tg ← text_not_null "target" (dict_get_default msg_dict "target" (VStr ""));
  tp ← text_null "template" (dict_get_default msg_dict "template" VNone);
  pr ← int_null "priority" (dict_get_default msg_dict "priority" (VInt 5));
  st ← text_null "status" (dict_get_default msg_dict "status" (VStr "pending"));
  rc ← int_null "retry_count"
         (dict_get_default msg_dict "retry_count" (VInt 0));
  mr ← int_null "max_retries"
         (dict_get_default msg_dict "max_retries" (VInt 3));
  le ← text_null "last_error" (dict_get_default msg_dict "last_error" VNone);
  ca ← text_not_null "created_at"
         (dict_get_default msg_dict "created_at" (VStr now));
  sa ← text_null "sent_at" (dict_get_default msg_dict "sent_at" VNone);
  Done (mk_MessageStore
          (<[id' := mk_MessageRow id' fc tc ct tg tp (Some tv) (Some md)
                      pr st rc mr le ca sa (Some now)]> (messages s))
          (delivery_events s) (scheduled_messages s)).

(** [save_scheduled], a plain [INSERT]: the id must be new. *)
Definition save_scheduled (now : string) (schedule_id : string)
    (message_data : Value) (scheduled_at : string) (s : MessageStore)
  : outcome MessageStore :=
  data ← of_result (json_dumps message_data);
  match scheduled_messages s !! schedule_id with
  | Some _ =>
      IntegrityError "UNIQUE constraint failed: scheduled_messages.id"
  | None =>
      Done (mk_MessageStore (messages s) (delivery_events s)
              (<[schedule_id := mk_ScheduledRow data scheduled_at
                                  (Some "pending") None None now]>
                 (scheduled_messages s)))
  end.
End Save.

(** [if channel:] and [if status:] hold for a non-empty string. *)
Definition given (filter : option string) : option string :=
  match filter with
  | Some f => if String.eqb f "" then None else Some f
  | None => None
  end.

(** The [WHERE] clause of [count_messages]. *)
Definition row_matches (channel status : option string) (r : MessageRow)
  : bool :=
  match given channel with
  | Some c => String.eqb (to_channel r) c
  | None => true
  end
  && match given status with
     | Some st =>
         match Store.status r with
         | Some s => String.eqb s st
         | None => false
         end
     | None => true
     end.

Definition count_messages (s : MessageStore) (channel status : option string)
  : nat :=
  size (filter (fun kr => row_matches channel status kr.2 = true)
          (messages s)).

(** The [WHERE] clause of [get_due_scheduled]: pending, and scheduled
    at or before [now], timestamps compared as text. *)
Definition is_due (now : string) (r : ScheduledRow) : bool :=
  match sched_status r with
  | Some st => String.eqb st "pending"
  | None => false
  end
  && String.leb (scheduled_at r) now.

Definition mark_scheduled_done (now : string) (schedule_id : string)
    (result : option string) (s : MessageStore) : MessageStore :=
  mk_MessageStore (messages s) (delivery_events s)
    (alter (fun r => mk_ScheduledRow (message_data r) (scheduled_at r)
                       (Some "executed") (Some now) result
                       (sched_created_at r))
       schedule_id (scheduled_messages s)).

(** [delete_scheduled]: whether a row was deleted, and the store. *)
Definition delete_scheduled (schedule_id : string) (s : MessageStore)
  : bool * MessageStore :=
  (bool_decide (is_Some (scheduled_messages s !! schedule_id)),
   mk_MessageStore (messages s) (delivery_events s)
     (delete schedule_id (scheduled_messages s))).

End Store.

(** ** gateway/rate_limiter.py

    Python floats are read as exact rationals. *)
Module RateLimiter.
Local Open Scope Q_scope.

Record BucketConfig := mk_BucketConfig {
  capacity : Q;
  refill_rate : Q;
  burst : Q;
  cooldown_ms : Z
}.

(** The dataclass defaults. *)
Definition default_burst : Q := 10.
Definition default_cooldown_ms : Z := 100.

Record TokenBucket := mk_TokenBucket {
  config : BucketConfig;
  _tokens : Q;
  _last_refill : Q;
  _last_consume : Q;
  _total_consumed : Z;
  _total_rejected : Z;
  _total_waited_ms : Q
}.

(** The constructor; [t0] is its reading of [time.monotonic()]. *)
Definition init (cfg : BucketConfig) (t0 : Q) : TokenBucket :=
  mk_TokenBucket cfg (capacity cfg) t0 0 0%Z 0%Z 0.

(** The builtin [min(a, b)]. *)
Definition py_min (a b : Q) : Q := if Qle_bool a b then a else b.

Definition _refill (now : Q) (b : TokenBucket) : TokenBucket :=
  let elapsed := now - _last_refill b in
  mk_TokenBucket (config b)
    (py_min (capacity (config b) + burst (config b))
            (_tokens b + elapsed * refill_rate (config b)))
    now (_last_consume b) (_total_consumed b) (_total_rejected b)
    (_total_waited_ms b).

Definition reject (b : TokenBucket) : TokenBucket :=
  mk_TokenBucket (config b) (_tokens b) (_last_refill b) (_last_consume b)
    (_total_consumed b) (_total_rejected b + 1)%Z (_total_waited_ms b).

Definition Qlt_bool (a b : Q) : bool := negb (Qle_bool b a).

(** [try_consume(tokens)] under the bucket's lock; [t_refill] and
    [now] are its two successive readings of [time.monotonic()]. *)
Definition try_consume (tokens : Q) (t_refill now : Q) (b : TokenBucket)
  : bool * TokenBucket :=
  let b := _refill t_refill b in
  if Qlt_bool 0 (_last_consume b)
     && Qlt_bool ((now - _last_consume b) * 1000)
                 (inject_Z (cooldown_ms (config b)))
  then (false, reject b)
  else if Qle_bool tokens (_tokens b) then
    (true,
     mk_TokenBucket (config b) (_tokens b - tokens) (_last_refill b) now
       (_total_consumed b + 1)%Z (_total_rejected b) (_total_waited_ms b))
  else (false, reject b).

(** A run of [try_consume()] calls with the default of one token, each
    given its two clock readings; the answers in call order. *)
Fixpoint run (calls : list (Q * Q)) (b : TokenBucket)
  : list bool * TokenBucket :=
  match calls with
  | [] => ([], b)
  | (t_refill, now) :: rest =>
      let '(ok, b) := try_consume 1 t_refill now b in
      let '(oks, b) := run rest b in
      (ok :: oks, b)
  end.

(** The number of admitted calls among the answers. *)
Definition admitted (oks : list bool) : Z :=
  Z.of_nat (length (List.filter id oks)).


(** The [available] property. *)
Definition available (now : Q) (b : TokenBucket) : Q * TokenBucket :=
  let b := _refill now b in (_tokens b, b).

(** [BucketConfig()]. *)
Definition default_config : BucketConfig :=
  mk_BucketConfig 30 1 default_burst default_cooldown_ms.

Definition DEFAULT_LIMITS : gmap string BucketConfig :=
  list_to_map
    [ ("telegram", mk_BucketConfig 30 1 5 35);
      ("whatsapp", mk_BucketConfig 80 2 10 50);
      ("discord", mk_BucketConfig 5 (1 # 5) 2 500);
      ("slack", mk_BucketConfig 1 1 1 1000);
      ("email", mk_BucketConfig 10 (1 # 2) 3 200);
      ("webhook", mk_BucketConfig 100 10 20 10) ].

(** The limiter: its buckets by key, its limits by channel name and
    the global bucket. *)
Record RateLimiter := mk_RateLimiter {
  _buckets : gmap string TokenBucket;
  _limits : gmap string BucketConfig;
  _global_bucket : TokenBucket
}.

(** The constructor; the custom limits override the defaults, and
    [t0] is the clock reading of the global bucket's constructor. *)
Definition new (custom_limits : option (gmap string BucketConfig)) (t0 : Q)
  : RateLimiter :=
  mk_RateLimiter ∅
    (default ∅ custom_limits ∪ DEFAULT_LIMITS)
    (init (mk_BucketConfig 200 20 50 0) t0).

(** [key.split(":")[0] if ":" in key else key]: the key up to its
    first colon. *)
Fixpoint channel_of (key : string) : string :=
  match key with
  | EmptyString => EmptyString
  | String c rest =>
      if Ascii.eqb c ":"%char then EmptyString else String c (channel_of rest)
  end.

Section Clock.
(** The successive readings of [time.monotonic()]; the functions
    below take the number of readings made so far and return it
    advanced by the readings they make. *)
Variable monotonic : nat -> Q.

(** [_get_bucket(key)]: the bucket under the key, created from the
    limits of the key's channel when there is none. *)
Definition _get_bucket (key : string) (n : nat) (rl : RateLimiter)
  : TokenBucket * RateLimiter * nat :=
  match _buckets rl !! key with
  | Some b => (b, rl, n)
  | None =>
      let b := init (default default_config (_limits rl !! channel_of key))
                 (monotonic n) in
      (b, mk_RateLimiter (<[key := b]> (_buckets rl)) (_limits rl)
            (_global_bucket rl), S n)
  end.

(** [self._get_bucket(key).try_consume()]: the bucket is an object
    of the dictionary, which sees its new state. *)
Definition consume_at (key : string) (n : nat) (rl : RateLimiter)
  : bool * RateLimiter * nat :=
  let '(b, rl, n) := _get_bucket key n rl in
  let '(ok, b) := try_consume 1 (monotonic n) (monotonic (S n)) b in
  (ok, mk_RateLimiter (<[key := b]> (_buckets rl)) (_limits rl)
         (_global_bucket rl), S (S n)).

(** [check(channel, target)]. *)
Definition check (channel : string) (target : option string) (n : nat)
    (rl : RateLimiter) : bool * RateLimiter * nat :=
  let '(ok, g) :=
    try_consume 1 (monotonic n) (monotonic (S n)) (_global_bucket rl) in
  let rl := mk_RateLimiter (_buckets rl) (_limits rl) g in
  let n := S (S n) in
  if negb ok then (false, rl, n)
  else
    let '(ok, rl, n) := consume_at channel n rl in
    if negb ok then (false, rl, n)
    else
      match target with
      | Some t =>
          if String.eqb t "" then (true, rl, n)
          else consume_at (channel +:+ ":" +:+ t) n rl
      | None => (true, rl, n)
      end.
End Clock.

(** [k.startswith(p)]. *)
Fixpoint startswith (p k : string) : bool :=
  match p, k with
  | EmptyString, _ => true
  | String a p', String c k' => Ascii.eqb a c && startswith p' k'
  | String _ _, EmptyString => false
  end.

(** [reset(channel)]: without a channel all buckets go, with one the
    bucket of the channel and those of its targets; the global bucket
    stays. *)
Definition reset (channel : option string) (rl : RateLimiter) : RateLimiter :=
  match channel with
  | Some c =>
      if String.eqb c "" then
        mk_RateLimiter ∅ (_limits rl) (_global_bucket rl)
      else
        mk_RateLimiter
          (filter (fun kb => negb (String.eqb kb.1 c
                                   || startswith (c +:+ ":") kb.1) = true)
             (_buckets rl))
          (_limits rl) (_global_bucket rl)
  | None => mk_RateLimiter ∅ (_limits rl) (_global_bucket rl)
  end.

End RateLimiter.

(** ** Vocabulary of the properties *)

Module Props.
Import Models.

(** An attachment as it comes back from its dictionary: the payload
    bytes are not part of [Attachment_to_dict]. *)
Definition without_data (a : Attachment) : Attachment :=
  mk_Attachment (filename a) (content_type a) (url a) None (size a).

(** The message that [from_dict] builds from [to_dict m]. *)
Definition reloaded (now : datetime) (m : Message) : Message :=
  {| from_channel := from_channel m; to_channel := to_channel m;
     content := content m; target := target m; id := id m;
     attachments := map without_data (attachments m);
     metadata := metadata m; priority := priority m; status := status m;
     template := template m; template_vars := [];
     created_at := now; sent_at := None;
     retry_count := retry_count m; max_retries := 3;
     last_error := last_error m |}.

(** A message with every optional field away from its default. *)
Definition sample_message : Message :=
  {| from_channel := WEBHOOK; to_channel := SLACK;
     content := "disk 95%"; target := "#ops"; id := "m-1";
     attachments := [mk_Attachment "a.bin" "application/octet-stream"
                       None (Some [Byte.x01; Byte.x02]) 2];
     metadata := [("urgent", VBool true)];
     priority := HIGH; status := SENT;
     template := Some "alert";
     template_vars := [("level", VStr "WARN")];
     created_at := mk_datetime "2024-01-01T00:00:00";
     sent_at := Some (mk_datetime "2024-01-01T00:00:05");
     retry_count := 1; max_retries := 5;
     last_error := Some "timeout" |}.

(** The rule the specification selects from the rules in insertion
    order: among those accepted by [f], one of highest priority, the
    earliest inserted on ties. *)
Fixpoint best_match (f : Router.RoutingRule -> bool)
    (l : list Router.RoutingRule) : option Router.RoutingRule :=
  match l with
  | [] => None
  | r :: l' =>
      match best_match f l' with
      | Some b =>
          if f r && (Router.priority b <=? Router.priority r)
          then Some r else Some b
      | None => if f r then Some r else None
      end
  end.

(** [r], at position [i] of the insertion order [l], is accepted by
    [f]; no accepted rule has a higher priority, and none of equal
    priority was inserted before it. *)
Definition is_best (f : Router.RoutingRule -> bool)
    (l : list Router.RoutingRule) (i : nat) (r : Router.RoutingRule) : Prop :=
  l !! i = Some r /\ f r = true /\
  forall j r', l !! j = Some r' -> f r' = true ->
    Router.priority r' <= Router.priority r /\
    (Router.priority r' = Router.priority r -> (i <= j)%nat).

(** Descending by priority. *)
Fixpoint sorted_desc (l : list Router.RoutingRule) : Prop :=
  match l with
  | [] => True
  | x :: l' =>
      Forall (fun y => Router.priority y <= Router.priority x) l'
      /\ sorted_desc l'
  end.

(** The engine after [add_rule] has been called on each rule of [rs]
    in turn. *)
Definition add_rules {World} (rs : list Router.RoutingRule)
    (e : Router.RoutingEngine World) : Router.RoutingEngine World :=
  foldl (fun e r => Router.add_rule r e) e rs.

Section Attempts.
Context {World : Type}.

(** The adapter's answers on [n] successive attempts starting at
    [attempt], each attempt seeing the message as the loop marks it
    and the world as the previous attempt left it. *)
Fixpoint attempt_outcomes (n : nat) (attempt : Z)
    (handler : Router.Handler World) (w : World) (m : Message)
  : list (result SendResult) :=
  match n with
  | O => []
  | S n' =>
      let m := Router.set_attempt m attempt in
      let '(r, w) := handler w m in
      r :: attempt_outcomes n' (attempt + 1) handler w m
  end.
End Attempts.

Section History.
Context {World : Type}.

(** The public operations of the engine, as a caller issues them one
    after the other. *)
Inductive Call :=
| CallRoute (now : datetime) (m : Message)
| CallRetryDeadLetter (now : datetime) (index : Z)
| CallAddRule (rule : Router.RoutingRule)
| CallRemoveRule (name : string)
| CallRegisterChannel (ch : ChannelType) (handler : Router.Handler World)
| CallAddMiddleware (fn : Message -> result Message)
| CallClearDeadLetters.

(** The engine and the world after some calls, with what the last call
    gave back: a dispatch gives a [SendResult] or lets an exception
    escape, the other operations give no result of that kind. *)
Record Trace := mk_Trace {
  t_outcome : option (result SendResult);
  t_engine : Router.RoutingEngine World;
  t_world : World
}.

Definition of_dispatch (d : Router.Dispatch World) : Trace :=
  mk_Trace (Some (Router.d_result d)) (Router.d_engine d) (Router.d_world d).

Definition call (c : Call) (e : Router.RoutingEngine World) (w : World)
  : Trace :=
  match c with
  | CallRoute now m => of_dispatch (Router.route e w now m)
  | CallRetryDeadLetter now index =>
      match Router.retry_dead_letter e w now index with
      | Some d => of_dispatch d
      | None => mk_Trace None e w
      end
  | CallAddRule rule => mk_Trace None (Router.add_rule rule e) w
  | CallRemoveRule name => mk_Trace None (Router.remove_rule name e).2 w
  | CallRegisterChannel ch handler =>
      mk_Trace None (Router.register_channel ch handler e) w
  | CallAddMiddleware fn => mk_Trace None (Router.add_middleware fn e) w
  | CallClearDeadLetters => mk_Trace None (Router.clear_dead_letters e).2 w
  end.

(** A dispatch left through an escaping exception. *)
Definition aborted (o : option (result SendResult)) : bool :=
  match o with
  | Some (Raise _) => true
  | _ => false
  end.

(** The calls [cs] issued in order from engine [e] and world [w]: the
    final engine and world, and the number of dispatches aborted. *)
Fixpoint history (cs : list Call) (e : Router.RoutingEngine World)
    (w : World) (n_aborted : Z) : Router.RoutingEngine World * World * Z :=
  match cs with
  | [] => (e, w, n_aborted)
  | c :: cs' =>
      let t := call c e w in
      history cs' (t_engine t) (t_world t)
        (if aborted (t_outcome t) then n_aborted + 1 else n_aborted)
  end.
End History.
Arguments Call : clear implicits.
Arguments Trace : clear implicits.

(** An attempt fails when the adapter returns [success=False] or
    raises. *)
Definition is_failure (r : result SendResult) : bool :=
  match r with
  | Ok res => negb (success res)
  | Raise _ => true
  end.

(** The error text a failed attempt leaves in [last_error]. *)
Definition failure_text (r : result SendResult) : string :=
  match r with
  | Ok res => Router.error_or_unknown res
  | Raise e => str_of_exc e
  end.

(** Two stateless adapters: one that always answers failure, one that
    fails the first attempt only. *)
Definition always_fail : Router.Handler unit := fun w m =>
  (Ok (mk_SendResult false (id m) (to_channel m) None (Some "fail") 0), w).

Definition fail_first : Router.Handler unit := fun w m =>
  (Ok (mk_SendResult (negb (retry_count m =? 0)) (id m) (to_channel m)
         None (if retry_count m =? 0 then Some "timeout" else None) 0), w).

(** A plain telegram message with the given [max_retries]. *)
Definition telegram_message (retries : Z) : Message :=
  {| from_channel := WEBHOOK; to_channel := TELEGRAM;
     content := "test"; target := "123"; id := "m-0";
     attachments := []; metadata := [];
     priority := NORMAL; status := PENDING;
     template := None; template_vars := [];
     created_at := mk_datetime "2024-01-01T00:00:00"; sent_at := None;
     retry_count := 0; max_retries := retries; last_error := None |}.

Definition fail_first_engine : Router.RoutingEngine unit :=
  Router.register_channel TELEGRAM fail_first (Router.init 3 1).

Definition always_fail_engine : Router.RoutingEngine unit :=
  Router.register_channel TELEGRAM always_fail (Router.init 1 1).

Definition noon : datetime := mk_datetime "2024-01-01T12:00:00".

(** A message for a channel that has no adapter in the examples. *)
Definition discord_message : Message :=
  {| from_channel := WEBHOOK; to_channel := DISCORD;
     content := "test"; target := "456"; id := "m-9";
     attachments := []; metadata := [];
     priority := NORMAL; status := PENDING;
     template := None; template_vars := [];
     created_at := mk_datetime "2024-01-01T00:00:00"; sent_at := None;
     retry_count := 0; max_retries := 3; last_error := None |}.

(** A session: one dispatch that succeeds on its second attempt, one
    that is dead-lettered, one without adapter, and a retry of the
    dead letter. *)
Definition sample_calls : list (Call unit) :=
  [ CallRegisterChannel TELEGRAM fail_first;
    CallRoute noon (telegram_message 2);
    CallRegisterChannel TELEGRAM always_fail;
    CallRoute noon (telegram_message 1);
    CallRoute noon discord_message;
    CallRetryDeadLetter noon 0 ].

(** A middleware that raises on every message. *)
Definition raising_middleware : Message -> result Message :=
  fun _ => Raise (RuntimeError "middleware failed").

(** Rules for the examples: two that accept every message, one whose
    predicate raises, one that is switched off. *)
Definition rule_low : Router.RoutingRule :=
  Router.mk_RoutingRule "low" (fun _ => Ok true) TELEGRAM 1 None true.
Definition rule_high : Router.RoutingRule :=
  Router.mk_RoutingRule "high" (fun _ => Ok true) DISCORD 10 None true.
Definition rule_bad : Router.RoutingRule :=
  Router.mk_RoutingRule "bad" (fun _ => Raise (ValueError "oops")) SLACK 20
    None true.
Definition rule_off : Router.RoutingRule :=
  Router.mk_RoutingRule "disabled" (fun _ => Ok true) EMAIL 30 None false.

(** A rule that never stops the search: switched off, or with a
    predicate that raises on the message. *)
Definition inert (r : Router.RoutingRule) (m : Message) : Prop :=
  Router.enabled r = false \/ exists exc, Router.condition r m = Raise exc.

(** An adapter that accepts every message. *)
Definition always_ok : Router.Handler unit := fun w m =>
  (Ok (mk_SendResult true (id m) (to_channel m) None None 0), w).

(** Jinja2 on the sources that hold no delimiter: such a source is
    plain data and renders to itself, less one trailing newline.  The
    other sources are outside this fragment and marked by an error. *)
Fixpoint has_brace (src : string) : bool :=
  match src with
  | EmptyString => false
  | String c rest => Ascii.eqb c "{"%char || has_brace rest
  end.

Fixpoint strip_final_newline (src : string) : string :=
  match src with
  | EmptyString => EmptyString
  | String c EmptyString =>
      if Ascii.eqb c "010"%char then EmptyString else src
  | String c rest => String c (strip_final_newline rest)
  end.

Definition jinja_plain (src : string) (variables : Dict) : result string :=
  if has_brace src then Raise (RuntimeError "template outside the plain fragment")
  else Ok (strip_final_newline src).

(** A gateway with one adapter and a registered template named
    "blank" whose source is empty, and a message that names it. *)
Definition blank_gateway : Core.Gateway unit :=
  Core.register_template "blank" ""
    (Core.register_channel TELEGRAM always_ok
       (Core.mk_Gateway ∅ (Router.init 3 1)
          (Templates.mk_TemplateEngine ∅ None))).

Definition templated_message (name : string) : Message :=
  {| from_channel := WEBHOOK; to_channel := TELEGRAM;
     content := "original"; target := "123"; id := "m-5";
     attachments := []; metadata := [];
     priority := NORMAL; status := PENDING;
     template := Some name; template_vars := [];
     created_at := mk_datetime "2024-01-01T00:00:00"; sent_at := None;
     retry_count := 0; max_retries := 3; last_error := None |}.

(** A store holding one pending message that was never sent. *)
Definition pending_row : Store.MessageRow :=
  Store.mk_MessageRow "test-msg-001" "webhook" "telegram" (Some "hi") "123"
    None (Some "{}") (Some "{}") (Some 5) (Some "pending") (Some 0) (Some 3)
    None "2024-01-01T00:00:00" None (Some "2024-01-01T00:00:00").

Definition sample_store : Store.MessageStore :=
  Store.mk_MessageStore {[ "test-msg-001" := pending_row ]} [] ∅.


(** The counter [_stats["sent:<channel>"]], which the [stats] property
    reports under [by_channel]. *)
Definition sent_on {World} (e : Router.RoutingEngine World)
    (ch : ChannelType) : Z :=
  Router.stat (Router._stats e) ("sent:" +:+ channel_value ch).

Definition stats_dead {World} (e : Router.RoutingEngine World) : Z :=
  Router.stat (Router._stats e) "dead".


(** [l] is [rs] sorted by descending priority, the rules of one
    priority keeping the order they have in [rs]. *)
Definition stable_sorted (l rs : list Router.RoutingRule) : Prop :=
  l ≡ₚ rs /\ sorted_desc l /\
  forall p, filter (fun r => Router.priority r = p) l
            = filter (fun r => Router.priority r = p) rs.

(** The counters of all channels together. *)
Definition sum_sent_on {World} (e : Router.RoutingEngine World) : Z :=
  foldr Z.add 0 (map (sent_on e) all_channels).

(** The invariant behind the [stats] property: the sent counter is
    the sum of the per-channel ones, the queue holds no more entries
    than were ever dead-lettered, and every dead letter is an error. *)
Definition counters_ok {World} (e : Router.RoutingEngine World) : Prop :=
  Router.stats_sent e = sum_sent_on e /\
  Z.of_nat (length (Router.dead_letter_queue e)) <= stats_dead e /\
  stats_dead e <= Router.stats_errors e /\
  0 <= Router.stats_sent e.

(** The channels of a broadcast that have a non-empty target. *)
Definition addressed (targets : gmap string string)
    (chs : list ChannelType) : list ChannelType :=
  List.filter
    (fun ch => negb (String.eqb (default "" (targets !! channel_value ch)) ""))
    chs.

(** Clock and uuid readings for the examples. *)
Definition sample_stamps (k : nat) : Core.Stamp :=
  Core.mk_Stamp ("b-" +:+ str_of_int (Z.of_nat k))
    (mk_datetime "2024-01-01T00:00:00") noon.

(** [json.dumps] for the examples, on the two values they meet. *)
Definition json_sample (v : Value) : result string :=
  match v with
  | VDict [] => Ok "{}"
  | VDict [("urgent", VBool true)] => Ok "{urgent}"
  | _ => Raise (TypeError "Object is not JSON serializable")
  end.






Section Checks.
(** The successive readings of [time.monotonic()]. *)
Variable monotonic : nat -> Q.

End Checks.

(** The consumptions counted by the bucket under a key, none when
    there is no bucket. *)
Definition consumed_at (rl : RateLimiter.RateLimiter) (key : string) : Z :=
  match RateLimiter._buckets rl !! key with
  | Some b => RateLimiter._total_consumed b
  | None => 0
  end.

(** A clock that advances by a tenth of a second at each reading. *)
Definition tenths (n : nat) : Q := inject_Z (Z.of_nat n) / 10.

(** A limiter built at time zero after one check on slack. *)
Definition slack_checked : RateLimiter.RateLimiter :=
  (RateLimiter.check tenths "slack" None 1
     (RateLimiter.new None (tenths 0))).1.2.

End Props.

(** * Properties *)

(** ** Message serialisation (models.py) *)
Section RoundTrip.
Import Models Props.

Lemma Attachment_of_kwargs_to_dict a :
  Attachment_of_kwargs (VDict (Attachment_to_dict a)) = Ok (without_data a).
Proof.
  destruct a as [fn ct [u|] d sz]; reflexivity.
Qed.

Lemma build_attachments_to_dict l :
  build_attachments (map (fun a => VDict (Attachment_to_dict a)) l)
  = Ok (map without_data l).
Proof.
  induction l as [|a l IH]; [reflexivity|].
  cbn [map build_attachments].
  rewrite Attachment_of_kwargs_to_dict, IH. reflexivity.
Qed.

Lemma ChannelType_of_value c : ChannelType_of (VStr (channel_value c)) = Ok c.
Proof. destruct c; reflexivity. Qed.

Lemma MessageStatus_of_value s :
  MessageStatus_of (VStr (status_value s)) = Ok s.
Proof. destruct s; reflexivity. Qed.

Lemma MessagePriority_of_value p :
  MessagePriority_of (VInt (priority_value p)) = Ok p.
Proof. destruct p; reflexivity. Qed.

Lemma as_opt_str_value field o : as_opt_str field (opt_str_value o) = Ok o.
Proof. destruct o; reflexivity. Qed.

Lemma from_dict_to_dict now fresh m :
  from_dict now fresh (to_dict m) = Ok (reloaded now m).
Proof.
  unfold from_dict, to_dict, dict_get_default, dict_index.
  cbn [dict_get String.eqb Ascii.eqb Bool.eqb default mbind result_bind].
  unfold Datatypes.id.
  rewrite build_attachments_to_dict.
  cbn [mbind result_bind as_str as_dict as_int].
  rewrite !ChannelType_of_value, MessageStatus_of_value,
    MessagePriority_of_value, !as_opt_str_value.
  reflexivity.
Qed.

(** C4, as the code has it: [from_dict (to_dict m)] returns a message
    that agrees with [m] on id, both channels, content, target,
    metadata, priority, status, template, retry_count and last_error,
    and whose attachments are those of [m] in order with filename,
    content type, url and size kept and the payload bytes absent; its
    created_at is the time of the call and its sent_at is unset. *)
Theorem from_dict_to_dict_preserves now fresh m :
  exists m',
    from_dict now fresh (to_dict m) = Ok m' /\
    id m' = id m /\
    from_channel m' = from_channel m /\
    to_channel m' = to_channel m /\
    content m' = content m /\
    target m' = target m /\
    metadata m' = metadata m /\
    priority m' = priority m /\
    status m' = status m /\
    template m' = template m /\
    retry_count m' = retry_count m /\
    last_error m' = last_error m /\
    map filename (attachments m') = map filename (attachments m) /\
    map content_type (attachments m') = map content_type (attachments m) /\
    map url (attachments m') = map url (attachments m) /\
    map size (attachments m') = map size (attachments m) /\
    Forall (fun a => data a = None) (attachments m') /\
    created_at m' = now /\
    sent_at m' = None.
Proof.
  exists (reloaded now m). split; [apply from_dict_to_dict|].
  repeat (split; [reflexivity|]).
  cbn [reloaded attachments].
  rewrite <- !list_fmap_compose.
  repeat (split; [reflexivity|]).
  split; [|split; reflexivity].
  apply Forall_fmap, Forall_true. reflexivity.
Qed.

(** C4 as stated fails: on [sample_message] the round trip returns a
    message whose template_vars, max_retries, sent_at and attachment
    payload differ from the original's, even when the clock reads the
    original creation time. *)
Lemma from_dict_to_dict_loses_fields :
  exists m',
    from_dict (created_at sample_message) "fresh" (to_dict sample_message)
      = Ok m' /\
    m' <> sample_message /\
    template_vars m' = [] /\ template_vars sample_message <> [] /\
    max_retries m' = 3 /\ max_retries sample_message = 5 /\
    sent_at m' = None /\ sent_at sample_message <> None /\
    map data (attachments m') = [None] /\
    map data (attachments sample_message) <> [None].
Proof.
  eexists. split; [apply from_dict_to_dict|].
  repeat split; try reflexivity; try discriminate.
Qed.
End RoundTrip.

(** ** The retry loop (router.py) *)
Section RetryLoop.
Import Models Router Props.
Context {World : Type}.
Implicit Types (handler : Handler World) (e : RoutingEngine World)
  (w : World) (m : Message).

Lemma last_cons {A} (l : list A) : forall a d,
  List.last (a :: l) d = List.last l a.
Proof.
  induction l as [|s l IH]; intros a d; [reflexivity|].
  change (List.last (a :: s :: l) d) with (List.last (s :: l) d).
  rewrite !IH. reflexivity.
Qed.

Lemma retry_loop_all_fail n : forall attempt N delay handler ch now m last st w sl,
  forallb is_failure (attempt_outcomes n attempt handler w m) = true ->
  exists m',
    ls_exit (retry_loop n attempt N delay handler ch now m last st w sl)
      = Exhausted
          (List.last (map failure_text (attempt_outcomes n attempt handler w m)) last)
          m' /\
    ls_stats (retry_loop n attempt N delay handler ch now m last st w sl) = st /\
    id m' = id m.
Proof.
  induction n as [|n IH]; intros attempt N delay handler ch now m last st w sl Hf.
  - exists m. repeat split.
  - cbn [retry_loop attempt_outcomes] in *.
    destruct (handler w (set_attempt m attempt)) as [r w1] eqn:Hh.
    cbn [forallb map] in Hf. apply andb_prop in Hf as [Hr Hrest].
    destruct r as [res|exc]; cbn [is_failure] in Hr.
    + apply negb_true_iff in Hr. rewrite Hr.
      edestruct (IH (attempt + 1) N delay handler ch now
                   (set_attempt m attempt) (error_or_unknown res) st w1)
        as (m' & He & Hs & Hid); [exact Hrest|].
      exists m'. rewrite He, Hs. repeat split; [|exact Hid].
      f_equal. cbn [map failure_text]. symmetry. apply last_cons.
    + edestruct (IH (attempt + 1) N delay handler ch now
                   (set_attempt m attempt) (str_of_exc exc) st w1)
        as (m' & He & Hs & Hid); [exact Hrest|].
      exists m'. rewrite He, Hs. repeat split; [|exact Hid].
      f_equal. cbn [map failure_text]. symmetry. apply last_cons.
Qed.

Lemma stat_incr_eq st k : stat (incr k st) k = stat st k + 1.
Proof. unfold stat, incr. rewrite lookup_insert_eq. reflexivity. Qed.

Lemma stat_incr_ne st k k' : k <> k' -> stat (incr k st) k' = stat st k'.
Proof. intros H. unfold stat, incr. rewrite lookup_insert_ne by exact H. reflexivity. Qed.

(** C1: when the adapter fails (returns failure or raises) on each of
    the N+1 attempts of the loop, N being the retry budget, the
    message ends dead with the last error recorded, one entry for it
    is appended to the dead-letter queue, the errors counter grows by
    one, and the result is a failure with retry_count N and error
    "All N+1 attempts failed: " followed by the last error. *)
Theorem send_with_retry_all_attempts_fail e w now handler m ch :
  let N := retry_budget e m in
  let outcomes := attempt_outcomes (Z.to_nat (N + 1)) 0 handler w m in
  let last := List.last (map failure_text outcomes) "" in
  let d := _send_with_retry e w now handler m ch in
  forallb is_failure outcomes = true ->
  status (d_message d) = DEAD /\
  last_error (d_message d) = Some last /\
  id (d_message d) = id m /\
  dead_letter_queue (d_engine d)
    = dead_letter_queue e ++ [mk_DeadLetterEntry (d_message d) last now N] /\
  d_result d
    = Ok (mk_SendResult false (id m) ch None
            (Some ("All " +:+ str_of_int (N + 1) +:+ " attempts failed: "
                     +:+ last)) N) /\
  stats_errors (d_engine d) = stats_errors e + 1.
Proof.
  intros N outcomes last d Hf. subst d. unfold _send_with_retry.
  fold N.
  destruct (retry_loop_all_fail _ 0 N (retry_delay e) handler ch now m ""
              (_stats e) w [] Hf) as (m' & He & Hs & Hid).
  rewrite He, Hs. fold outcomes. fold last.
  cbn [d_message d_engine d_result set_dead status last_error id
       set_dlq set_stats dead_letter_queue].
  rewrite Hid. repeat split.
  unfold stats_errors. cbn [_stats set_dlq set_stats].
  rewrite stat_incr_eq, stat_incr_ne by discriminate. reflexivity.
Qed.

Lemma retry_loop_delivered n : forall attempt N delay handler ch now m last st w sl res m',
  ls_exit (retry_loop n attempt N delay handler ch now m last st w sl)
    = Delivered res m' ->
  success res = true /\ status m' = SENT /\
  retry_count m' = sr_retry_count res /\
  Models.max_retries m' = Models.max_retries m /\
  attempt <= retry_count m' < attempt + Z.of_nat n.
Proof.
  induction n as [|n IH]; intros attempt N delay handler ch now m last st w sl res m' He.
  - discriminate He.
  - cbn [retry_loop] in He.
    destruct (handler w (set_attempt m attempt)) as [r w1].
    destruct r as [res0|exc].
    + destruct (success res0) eqn:Hs.
      * cbn [ls_exit] in He. injection He as <- <-.
        cbn. repeat split; try exact Hs; lia.
      * apply IH in He as (H1 & H2 & H3 & H4 & H5).
        repeat split; try assumption; try lia.
    + apply IH in He as (H1 & H2 & H3 & H4 & H5).
      repeat split; try assumption; try lia.
Qed.

Lemma send_with_retry_success e w now handler m ch res :
  d_result (_send_with_retry e w now handler m ch) = Ok res ->
  success res = true ->
  let m' := d_message (_send_with_retry e w now handler m ch) in
  status m' = SENT /\
  sr_retry_count res = retry_count m' /\
  Models.max_retries m' = Models.max_retries m /\
  0 <= retry_count m' <= retry_budget e m.
Proof.
  unfold _send_with_retry.
  destruct (ls_exit _) as [res' m1|last m1] eqn:He;
    cbn [d_result d_message]; intros Hr Hs.
  - injection Hr as ->.
    apply retry_loop_delivered in He as (H1 & H2 & H3 & H4 & H5).
    repeat split; try assumption; try lia.
  - injection Hr as <-. discriminate Hs.
Qed.

Lemma deliver_success e w now m ch res :
  d_result (deliver e w now m ch) = Ok res ->
  success res = true ->
  let m' := d_message (deliver e w now m ch) in
  status m' = SENT /\
  sr_retry_count res = retry_count m' /\
  Models.max_retries m' = Models.max_retries m /\
  0 <= retry_count m' <= retry_budget e m.
Proof.
  unfold deliver. destruct (_channel_handlers e !! ch) as [handler|].
  - apply send_with_retry_success.
  - cbn [d_result]. intros Hr Hs. injection Hr as <-. discriminate Hs.
Qed.

Lemma retry_budget_ext e e' m m' :
  max_retries e' = max_retries e ->
  Models.max_retries m' = Models.max_retries m ->
  retry_budget e' m' = retry_budget e m.
Proof. unfold retry_budget. intros -> ->. reflexivity. Qed.

(** C2, as the code has it: when a dispatch returns a result with
    success=true, the dispatched message ends in status sent, the
    result carries the message's retry_count, and that count lies
    between 0 and the retry budget N = msg.max_retries or
    engine.max_retries; it is at most the message's own max_retries
    whenever that field is not zero. *)
Theorem route_success_within_budget e w now m res :
  let m' := d_message (route e w now m) in
  d_result (route e w now m) = Ok res ->
  success res = true ->
  status m' = SENT /\
  sr_retry_count res = retry_count m' /\
  0 <= retry_count m' <= retry_budget e m' /\
  (Models.max_retries m' <> 0 -> retry_count m' <= Models.max_retries m').
Proof.
  assert (Hd : forall e0 m0 ch,
    max_retries e0 = max_retries e ->
    let m' := d_message (deliver e0 w now m0 ch) in
    d_result (deliver e0 w now m0 ch) = Ok res ->
    success res = true ->
    status m' = SENT /\
    sr_retry_count res = retry_count m' /\
    0 <= retry_count m' <= retry_budget e m' /\
    (Models.max_retries m' <> 0 -> retry_count m' <= Models.max_retries m')).
  { intros e0 m0 ch He m' Hr Hs.
    destruct (deliver_success _ _ _ _ _ _ Hr Hs) as (H1 & H2 & H3 & H4).
    fold m' in H1, H2, H3, H4.
    rewrite (retry_budget_ext e e0 m' m0 He (eq_sym H3)) in H4.
    repeat split; try assumption; try lia.
    intros Hne. unfold retry_budget in H4.
    destruct (Z.eqb_spec (Models.max_retries m') 0); [contradiction|lia]. }
  unfold route.
  destruct (_apply_middleware _ m) as [m1|exc]; [|discriminate].
  destruct (match_rule _ m1) as [rule|]; [|apply Hd; reflexivity].
  destruct (transform rule) as [f|]; [|apply Hd; reflexivity].
  destruct (f m1) as [m2|exc]; [apply Hd; reflexivity|discriminate].
Qed.

(** C2 as stated fails: a message with max_retries = 0 on an engine
    with max_retries = 3 gets the engine's budget; with an adapter
    that fails the first attempt only, the dispatch succeeds with
    retry_count 1, above the message's max_retries of 0. *)
Lemma route_success_above_max_retries :
  exists res,
    d_result (route fail_first_engine tt noon (telegram_message 0)) = Ok res /\
    success res = true /\
    status (d_message (route fail_first_engine tt noon (telegram_message 0))) = SENT /\
    retry_count (d_message (route fail_first_engine tt noon (telegram_message 0))) = 1 /\
    Models.max_retries (d_message (route fail_first_engine tt noon (telegram_message 0))) = 0 /\
    ~ (retry_count (d_message (route fail_first_engine tt noon (telegram_message 0)))
       <= Models.max_retries (d_message (route fail_first_engine tt noon (telegram_message 0)))).
Proof.
  eexists. vm_compute. repeat split; try reflexivity. intros H; apply H; reflexivity.
Qed.
End RetryLoop.

(** The all-attempts-fail theorem at a concrete dispatch: engine budget
    1, an adapter that always answers "fail". *)
Lemma send_with_retry_all_attempts_fail_witness :
  forallb Props.is_failure
    (Props.attempt_outcomes 2 0 Props.always_fail tt (Props.telegram_message 1))
    = true /\
  Router.d_result
    (Router._send_with_retry Props.always_fail_engine tt Props.noon
       Props.always_fail (Props.telegram_message 1) Models.TELEGRAM)
  = Ok (Models.mk_SendResult false "m-0" Models.TELEGRAM None
          (Some "All 2 attempts failed: fail") 1).
Proof.
  split; [reflexivity|].
  destruct (send_with_retry_all_attempts_fail Props.always_fail_engine tt
              Props.noon Props.always_fail (Props.telegram_message 1)
              Models.TELEGRAM eq_refl) as (_ & _ & _ & _ & H & _).
  exact H.
Defined.

(** The success theorem at a concrete dispatch: the adapter fails once,
    then succeeds, under a message budget of 2. *)
Lemma route_success_within_budget_witness :
  Models.status
    (Router.d_message
       (Router.route Props.fail_first_engine tt Props.noon
          (Props.telegram_message 2))) = Models.SENT /\
  Models.retry_count
    (Router.d_message
       (Router.route Props.fail_first_engine tt Props.noon
          (Props.telegram_message 2))) <= 2.
Proof.
  destruct (route_success_within_budget Props.fail_first_engine tt Props.noon
              (Props.telegram_message 2)
              (Models.mk_SendResult true "m-0" Models.TELEGRAM None None 1)
              eq_refl eq_refl) as (H1 & _ & _ & H4).
  split; [exact H1|]. apply H4. discriminate.
Defined.

(** ** Rule matching (router.py) *)
Section Rules.
Import Models Router Props.
Context {World : Type}.
Implicit Types (e : RoutingEngine World) (m : Message)
  (r x : RoutingRule) (l : list RoutingRule) (f : RoutingRule -> bool).

Lemma find_some_in f l b : find f l = Some b -> In b l /\ f b = true.
Proof. apply find_some. Qed.

Lemma insert_rule_Forall (P : RoutingRule -> Prop) x l :
  P x -> Forall P l -> Forall P (insert_rule x l).
Proof.
  intros Hx Hl. induction Hl as [|y l Hy Hl IH]; cbn [insert_rule].
  - constructor; [exact Hx|constructor].
  - destruct (priority x <? priority y); repeat constructor; assumption.
Qed.

Lemma insert_rule_sorted x l : sorted_desc l -> sorted_desc (insert_rule x l).
Proof.
  induction l as [|y l IH]; cbn [insert_rule sorted_desc].
  - intros _. split; [constructor|exact I].
  - intros [Hy Hl]. destruct (Z.ltb_spec (priority x) (priority y)).
    + cbn [sorted_desc]. split; [|apply IH, Hl].
      apply insert_rule_Forall; [lia|exact Hy].
    + cbn [sorted_desc]. repeat split; try assumption.
      constructor; [lia|].
      eapply Forall_impl; [exact Hy|]. cbn. intros; lia.
Qed.

Lemma sort_rules_sorted l : sorted_desc (sort_rules l).
Proof.
  induction l as [|x l IH]; [exact I|].
  apply insert_rule_sorted, IH.
Qed.

Lemma sorted_find_le f y l b :
  sorted_desc (y :: l) -> find f (y :: l) = Some b -> priority b <= priority y.
Proof.
  intros [Hy _] Hf. apply find_some_in in Hf as [[->|Hin] _]; [lia|].
  rewrite List.Forall_forall in Hy. apply Hy, Hin.
Qed.

Lemma find_insert_rule f x l :
  sorted_desc l ->
  find f (insert_rule x l)
  = match find f l with
    | Some b => if f x && (priority b <=? priority x) then Some x else Some b
    | None => if f x then Some x else None
    end.
Proof.
  induction l as [|y l IH]; [reflexivity|].
  intros Hs. cbn [insert_rule].
  destruct (Z.ltb_spec (priority x) (priority y)) as [Hlt|Hge].
  - cbn [find]. destruct (f y) eqn:Hfy.
    + destruct (Z.leb_spec (priority y) (priority x)); [lia|].
      rewrite andb_false_r. reflexivity.
    + apply IH, Hs.
  - change (find f (x :: y :: l)) with (if f x then Some x else find f (y :: l)).
    destruct (find f (y :: l)) as [b|] eqn:Hb; [|reflexivity].
    pose proof (sorted_find_le _ _ _ _ Hs Hb).
    destruct (f x); [|reflexivity].
    destruct (Z.leb_spec (priority b) (priority x)); [reflexivity|lia].
Qed.

Lemma find_sort_rules f l : find f (sort_rules l) = best_match f l.
Proof.
  induction l as [|x l IH]; [reflexivity|].
  cbn [sort_rules foldr best_match]. fold (sort_rules l).
  rewrite find_insert_rule by apply sort_rules_sorted.
  rewrite IH. reflexivity.
Qed.

Lemma best_match_sorted f l : sorted_desc l -> best_match f l = find f l.
Proof.
  induction l as [|y l IH]; [reflexivity|].
  intros Hs. cbn [best_match]. rewrite IH by apply Hs.
  cbn [find]. destruct (find f l) as [b|] eqn:Hb; [|reflexivity].
  destruct (f y); [|reflexivity].
  apply find_some_in in Hb as [Hin _].
  destruct Hs as [Hy _]. rewrite List.Forall_forall in Hy.
  specialize (Hy _ Hin).
  destruct (Z.leb_spec (priority b) (priority y)); [reflexivity|lia].
Qed.

Lemma best_match_in f l b : best_match f l = Some b -> f b = true.
Proof.
  revert b. induction l as [|y l IH]; [discriminate|].
  intros b. cbn [best_match].
  destruct (best_match f l) as [b0|].
  - destruct (f y) eqn:Hy; cbn [andb].
    + destruct (priority b0 <=? priority y); intros [= <-]; auto.
    + intros [= <-]; auto.
  - destruct (f y) eqn:Hy; [intros [= <-]; exact Hy|discriminate].
Qed.

Lemma best_match_snoc f l r :
  best_match f (l ++ [r])
  = match best_match f l with
    | Some b => if f r && (priority b <? priority r) then Some r else Some b
    | None => if f r then Some r else None
    end.
Proof.
  induction l as [|y l IH]; [reflexivity|].
  cbn [app best_match]. rewrite IH.
  destruct (best_match f l) as [b|]; destruct (f r), (f y); cbn [andb];
    repeat match goal with
      | |- context [(?a <? ?b)] => destruct (Z.ltb_spec a b)
      | |- context [(?a <=? ?b)] => destruct (Z.leb_spec a b)
      end; cbn [andb]; try reflexivity; try lia.
Qed.

Lemma best_match_None f l :
  best_match f l = None -> forall r, In r l -> f r = false.
Proof.
  induction l as [|y l IH]; cbn [best_match]; [intros _ r []|].
  destruct (best_match f l) as [b|].
  - destruct (f y && (priority b <=? priority y)); discriminate.
  - destruct (f y) eqn:Hy; [discriminate|].
    intros _ r [<-|Hin]; [exact Hy|apply IH; [reflexivity|exact Hin]].
Qed.

Lemma is_best_head f y l :
  f y = true ->
  (forall r', In r' l -> f r' = true -> priority r' <= priority y) ->
  is_best f (y :: l) 0 y.
Proof.
  intros Hy Hle. split; [reflexivity|]. split; [exact Hy|].
  intros [|j] r' Hj Hr'; cbn in Hj.
  - injection Hj as <-. lia.
  - split; [|lia]. apply Hle; [|exact Hr'].
    apply list_elem_of_In, list_elem_of_lookup. eauto.
Qed.

Lemma is_best_tail f y l i b :
  is_best f l i b ->
  (f y = true -> priority y < priority b) ->
  is_best f (y :: l) (S i) b.
Proof.
  intros (Hi & Hb & Hall) Hy. split; [exact Hi|]. split; [exact Hb|].
  intros [|j] r' Hj Hr'; cbn in Hj.
  - injection Hj as <-. specialize (Hy Hr'). lia.
  - destruct (Hall j r' Hj Hr') as [Hle Hij]. split; [exact Hle|].
    intros Heq. specialize (Hij Heq). lia.
Qed.

Lemma best_match_Some f l : forall r,
  best_match f l = Some r -> exists i, is_best f l i r.
Proof.
  induction l as [|y l IH]; [discriminate|].
  intros r. cbn [best_match].
  destruct (best_match f l) as [b|] eqn:Hb.
  - destruct (IH b eq_refl) as (i & Hbest).
    destruct (f y) eqn:Hy; cbn [andb].
    + destruct (Z.leb_spec (priority b) (priority y)); intros [= <-].
      * exists 0%nat. apply is_best_head; [exact Hy|].
        intros r' Hin Hr'.
        apply list_elem_of_In, list_elem_of_lookup in Hin as [j Hj].
        destruct Hbest as (_ & _ & Hall).
        destruct (Hall j r' Hj Hr'). lia.
      * exists (S i). apply is_best_tail; [exact Hbest|intros _; lia].
    + intros [= <-]. exists (S i).
      apply is_best_tail; [exact Hbest|congruence].
  - destruct (f y) eqn:Hy; [|discriminate]. intros [= <-].
    exists 0%nat. apply is_best_head; [exact Hy|].
    intros r' Hin Hr'. rewrite (best_match_None f l Hb r' Hin) in Hr'.
    discriminate.
Qed.

Lemma matches_true r m :
  matches r m = true <-> enabled r = true /\ condition r m = Ok true.
Proof.
  unfold matches. destruct (enabled r); cbn [negb].
  - destruct (condition r m) as [[|]|exc]; intuition congruence.
  - intuition congruence.
Qed.

Lemma add_rules_snoc (rs : list RoutingRule) r e :
  add_rules (rs ++ [r]) e = add_rule r (add_rules rs e).
Proof. unfold add_rules. rewrite foldl_snoc. reflexivity. Qed.

Lemma add_rules_sorted (rs : list RoutingRule) e :
  rules e = [] -> sorted_desc (rules (add_rules rs e)).
Proof.
  intros He. induction rs as [|r rs _] using rev_ind.
  - cbn. rewrite He. exact I.
  - rewrite add_rules_snoc. apply sort_rules_sorted.
Qed.

Lemma add_rules_frame (rs : list RoutingRule) e :
  _middleware (add_rules rs e) = _middleware e /\
  _stats (add_rules rs e) = _stats e /\
  _channel_handlers (add_rules rs e) = _channel_handlers e.
Proof.
  induction rs as [|r rs IH] using rev_ind; [repeat split|].
  rewrite add_rules_snoc. exact IH.
Qed.

Lemma match_rule_add_rules (rs : list RoutingRule) e m :
  rules e = [] ->
  match_rule (add_rules rs e) m = best_match (fun r => matches r m) rs.
Proof.
  intros He. induction rs as [|r rs IH] using rev_ind.
  - unfold match_rule. cbn. rewrite He. reflexivity.
  - rewrite add_rules_snoc. unfold match_rule in *. cbn [add_rule set_rules rules].
    rewrite find_sort_rules, !best_match_snoc.
    rewrite (best_match_sorted _ _ (add_rules_sorted rs e He)), IH.
    reflexivity.
Qed.

(** C3: on an engine whose rules were registered by [add_rule] in the
    order [rs], [route] matches the message as the middleware returns
    it against the rules and selects the enabled rule whose predicate
    holds with the highest priority, the earliest registered among
    equals; the message is then replaced by the rule's transform
    result when it has a transform, and delivered to the rule's
    target channel.  When no enabled rule's predicate holds, the
    message is delivered to its own to_channel. *)
Theorem route_selects_rule (rs : list RoutingRule) e0 (w : World) now m m1 :
  let e := add_rules rs e0 in
  let e1 := set_stats e (incr "total" (_stats e)) in
  rules e0 = [] ->
  _apply_middleware (_middleware e) m = Ok m1 ->
  match match_rule e m1 with
  | Some r =>
      enabled r = true /\ condition r m1 = Ok true /\
      (exists i, is_best (fun r' => matches r' m1) rs i r) /\
      route e w now m
      = match transform r with
        | Some f =>
            match f m1 with
            | Ok m2 => deliver e1 w now m2 (target_channel r)
            | Raise exc => mk_Dispatch (Raise exc) m1 e1 w []
            end
        | None => deliver e1 w now m1 (target_channel r)
        end
  | None =>
      (forall r, In r rs -> ~ (enabled r = true /\ condition r m1 = Ok true)) /\
      route e w now m = deliver e1 w now m1 (to_channel m1)
  end.
Proof.
  intros e e1 He0 Hmw.
  assert (Hroute : route e w now m
    = match match_rule e m1 with
      | Some rule =>
          match transform rule with
          | Some f =>
              match f m1 with
              | Ok m2 => deliver e1 w now m2 (target_channel rule)
              | Raise exc => mk_Dispatch (Raise exc) m1 e1 w []
              end
          | None => deliver e1 w now m1 (target_channel rule)
          end
      | None => deliver e1 w now m1 (to_channel m1)
      end).
  { unfold route. fold e1.
    change (_middleware e1) with (_middleware e). rewrite Hmw.
    reflexivity. }
  rewrite Hroute.
  pose proof (match_rule_add_rules rs e0 m1 He0) as Hbest. fold e in Hbest.
  destruct (match_rule e m1) as [r|].
  - symmetry in Hbest.
    pose proof (best_match_in _ _ _ Hbest) as Hm.
    apply matches_true in Hm as [Hen Hc].
    repeat split; try assumption.
    apply best_match_Some, Hbest.
  - split; [|reflexivity].
    intros r Hin Hr. apply matches_true in Hr.
    symmetry in Hbest.
    rewrite (best_match_None _ _ Hbest r Hin) in Hr. discriminate.
Qed.

Lemma inert_no_match r m : inert r m -> matches r m = false.
Proof.
  unfold matches. intros [->|[exc ->]]; [reflexivity|].
  destruct (negb (enabled r)); reflexivity.
Qed.

(** C10: [matches] and [match_rule] always return.  A disabled rule
    does not match, a rule whose predicate raises does not match, and
    [match_rule] passes over such rules: it answers as it would on
    the remaining rules, and with no rule at all when every rule is
    disabled or raises, in which case [route] delivers to the
    message's own channel. *)
Theorem match_rule_total e m :
  (forall r, enabled r = false -> matches r m = false) /\
  (forall r exc, condition r m = Raise exc -> matches r m = false) /\
  (forall r rest, rules e = r :: rest -> inert r m ->
     match_rule e m = match_rule (set_rules e rest) m) /\
  (Forall (fun r => inert r m) (rules e) -> match_rule e m = None) /\
  (forall w now m0,
     _apply_middleware (_middleware e) m0 = Ok m ->
     Forall (fun r => inert r m) (rules e) ->
     route e w now m0
     = deliver (set_stats e (incr "total" (_stats e))) w now m (to_channel m)).
Proof.
  assert (Hnone : Forall (fun r => inert r m) (rules e) -> match_rule e m = None).
  { unfold match_rule. induction 1 as [|r l Hr _ IH]; [reflexivity|].
    cbn [find]. rewrite (inert_no_match _ _ Hr). exact IH. }
  repeat split.
  - intros r Hr. apply inert_no_match. left. exact Hr.
  - intros r exc Hr. apply inert_no_match. right. eauto.
  - intros r rest Hrules Hr. unfold match_rule. rewrite Hrules.
    cbn [find set_rules rules]. rewrite (inert_no_match _ _ Hr). reflexivity.
  - exact Hnone.
  - intros w now m0 Hmw Hall. unfold route.
    change (_middleware (set_stats e _)) with (_middleware e). rewrite Hmw.
    change (match_rule (set_stats e (incr "total" (_stats e))) m)
      with (match_rule e m).
    rewrite (Hnone Hall). reflexivity.
Qed.
End Rules.

(** Rule selection at a concrete engine: "low" (priority 1) registered
    before "high" (priority 10); the dispatch goes to "high". *)
Lemma route_selects_rule_witness :
  Router.rules (Router.init (World:=unit) 3 1) = [] /\
  Router.enabled Props.rule_high = true /\
  (exists i,
     Props.is_best (fun r' => Router.matches r' (Props.telegram_message 3))
       [Props.rule_low; Props.rule_high] i Props.rule_high) /\
  Router.route
    (Props.add_rules [Props.rule_low; Props.rule_high] (Router.init 3 1))
    tt Props.noon (Props.telegram_message 3)
  = Router.deliver
      (Router.set_stats
         (Props.add_rules [Props.rule_low; Props.rule_high] (Router.init 3 1))
         (Router.incr "total" ∅))
      tt Props.noon (Props.telegram_message 3) Models.DISCORD.
Proof.
  split; [reflexivity|].
  pose proof (route_selects_rule [Props.rule_low; Props.rule_high]
                (Router.init 3 1) tt Props.noon (Props.telegram_message 3)
                (Props.telegram_message 3) eq_refl eq_refl) as H.
  cbv zeta in H.
  change (Router.match_rule _ _) with (Some Props.rule_high) in H.
  destruct H as (H1 & _ & H3 & H4).
  split; [exact H1|]. split; [exact H3|exact H4].
Defined.

(** Rule matching at a concrete engine holding only the disabled rule
    and the rule whose predicate raises. *)
Lemma match_rule_total_witness :
  Router.matches Props.rule_off (Props.telegram_message 3) = false /\
  Router.matches Props.rule_bad (Props.telegram_message 3) = false /\
  Router.match_rule
    (Props.add_rules [Props.rule_bad; Props.rule_off]
       (Router.init (World:=unit) 3 1)) (Props.telegram_message 3)
  = Router.match_rule
      (Router.set_rules
         (Props.add_rules [Props.rule_bad; Props.rule_off]
            (Router.init (World:=unit) 3 1)) [Props.rule_bad])
      (Props.telegram_message 3) /\
  Router.match_rule
    (Props.add_rules [Props.rule_bad; Props.rule_off]
       (Router.init (World:=unit) 3 1)) (Props.telegram_message 3) = None /\
  Router.route
    (Props.add_rules [Props.rule_bad; Props.rule_off] (Router.init 3 1))
    tt Props.noon (Props.telegram_message 3)
  = Router.deliver
      (Router.set_stats
         (Props.add_rules [Props.rule_bad; Props.rule_off] (Router.init 3 1))
         (Router.incr "total" ∅))
      tt Props.noon (Props.telegram_message 3) Models.TELEGRAM.
Proof.
  assert (Hoff : Props.inert Props.rule_off (Props.telegram_message 3))
    by (left; reflexivity).
  assert (Hbad : Props.inert Props.rule_bad (Props.telegram_message 3))
    by (right; eexists; reflexivity).
  destruct (match_rule_total
              (Props.add_rules [Props.rule_bad; Props.rule_off]
                 (Router.init (World:=unit) 3 1))
              (Props.telegram_message 3)) as (H1 & H2 & H3 & H4 & H5).
  split; [apply H1; reflexivity|].
  split; [apply (H2 _ (ValueError "oops")); reflexivity|].
  assert (Hall : Forall
            (fun r => Props.inert r (Props.telegram_message 3))
            [Props.rule_off; Props.rule_bad])
    by (constructor; [exact Hoff|constructor; [exact Hbad|constructor]]).
  split; [exact (H3 Props.rule_off [Props.rule_bad] eq_refl Hoff)|].
  split.
  - apply H4. exact Hall.
  - apply (H5 tt Props.noon (Props.telegram_message 3) eq_refl). exact Hall.
Defined.

(** ** Counters (router.py) *)
Section Counters.
Import Models Router Props.
Context {World : Type}.
Implicit Types (handler : Handler World) (e : RoutingEngine World)
  (w : World) (m : Message).

Lemma sent_key_ne ch k :
  k = "sent" \/ k = "errors" \/ k = "total" \/ k = "dead" ->
  "sent:" +:+ channel_value ch <> k.
Proof. intros [-> | [-> | [-> | ->]]]; discriminate. Qed.

Lemma retry_loop_stats n : forall attempt N delay handler ch now m last st w sl,
  ls_stats (retry_loop n attempt N delay handler ch now m last st w sl)
  = match ls_exit (retry_loop n attempt N delay handler ch now m last st w sl) with
    | Delivered _ _ => incr ("sent:" +:+ channel_value ch) (incr "sent" st)
    | Exhausted _ _ => st
    end.
Proof.
  induction n as [|n IH]; intros; [reflexivity|].
  cbn [retry_loop].
  destruct (handler w (set_attempt m attempt)) as [[res|exc] w1].
  - destruct (success res); [reflexivity|apply IH].
  - apply IH.
Qed.

(** Every counter the [stats] property reports, after a delivery. *)
Lemma deliver_counters e w now m ch :
  let e' := d_engine (deliver e w now m ch) in
  stats_total e' = stats_total e /\
  stats_sent e' + stats_errors e' = stats_sent e + stats_errors e + 1 /\
  stats_sent e <= stats_sent e' /\ stats_errors e <= stats_errors e' /\
  exists res, d_result (deliver e w now m ch) = Ok res.
Proof.
  unfold deliver, stats_total, stats_sent, stats_errors.
  destruct (_channel_handlers e !! ch) as [handler|].
  - unfold _send_with_retry.
    rewrite retry_loop_stats.
    destruct (ls_exit _) as [res m'|last m']; cbn [d_engine d_result _stats set_stats set_dlq].
    + rewrite !(stat_incr_ne _ ("sent:" +:+ channel_value ch))
        by (apply sent_key_ne; auto).
      rewrite stat_incr_eq, !stat_incr_ne by discriminate.
      repeat split; try lia. eauto.
    + rewrite stat_incr_eq, !stat_incr_ne by discriminate.
      repeat split; try lia. eauto.
  - cbn [d_engine d_result _stats set_stats].
    rewrite stat_incr_eq, !stat_incr_ne by discriminate.
    repeat split; try lia. eauto.
Qed.

(** What is in [total] and not yet in [sent] or [errors]. *)
Lemma route_counters e w now m :
  let d := route e w now m in
  stats_total (d_engine d) = stats_total e + 1 /\
  stats_sent e <= stats_sent (d_engine d) /\
  stats_errors e <= stats_errors (d_engine d) /\
  stats_sent (d_engine d) + stats_errors (d_engine d)
  = stats_sent e + stats_errors e
    + (if aborted (Some (d_result d)) then 0 else 1).
Proof.
  set (e1 := set_stats e (incr "total" (_stats e))).
  assert (H1 : stats_total e1 = stats_total e + 1)
    by (unfold stats_total; cbn; apply stat_incr_eq).
  assert (H2 : stats_sent e1 = stats_sent e)
    by (unfold stats_sent; cbn; apply stat_incr_ne; discriminate).
  assert (H3 : stats_errors e1 = stats_errors e)
    by (unfold stats_errors; cbn; apply stat_incr_ne; discriminate).
  assert (Hd : forall m0 ch,
    let d := deliver e1 w now m0 ch in
    stats_total (d_engine d) = stats_total e + 1 /\
    stats_sent e <= stats_sent (d_engine d) /\
    stats_errors e <= stats_errors (d_engine d) /\
    stats_sent (d_engine d) + stats_errors (d_engine d)
    = stats_sent e + stats_errors e
      + (if aborted (Some (d_result d)) then 0 else 1)).
  { intros m0 ch.
    destruct (deliver_counters e1 w now m0 ch) as (A & B & C & D & res & E).
    cbv zeta. rewrite E. cbn [aborted]. repeat split; lia. }
  unfold route. fold e1.
  destruct (_apply_middleware _ m) as [m1|exc].
  - destruct (match_rule e1 m1) as [rule|]; [|apply Hd].
    destruct (transform rule) as [f|]; [|apply Hd].
    destruct (f m1) as [m2|exc]; [apply Hd|].
    cbn [d_engine d_result aborted]. repeat split; lia.
  - cbn [d_engine d_result aborted]. repeat split; lia.
Qed.

Lemma same_stats e e' :
  _stats e' = _stats e ->
  stats_total e' = stats_total e /\ stats_sent e' = stats_sent e /\
  stats_errors e' = stats_errors e.
Proof.
  unfold stats_total, stats_sent, stats_errors. intros ->. repeat split.
Qed.

(** [total - sent - errors] grows by one exactly on an aborted
    dispatch, and [total] never decreases. *)
Lemma call_counters (c : Call World) e w :
  let t := call c e w in
  stats_total e <= stats_total (t_engine t) /\
  stats_total (t_engine t) - stats_sent (t_engine t) - stats_errors (t_engine t)
  = stats_total e - stats_sent e - stats_errors e
    + (if aborted (t_outcome t) then 1 else 0).
Proof.
  assert (Hsame : forall e', _stats e' = _stats e ->
    stats_total e <= stats_total e' /\
    stats_total e' - stats_sent e' - stats_errors e'
    = stats_total e - stats_sent e - stats_errors e + 0).
  { intros e' He. destruct (same_stats e e' He) as (-> & -> & ->). lia. }
  destruct c as [now m|now index|rule|nm|ch handler|fn|]; cbn [call];
    try (apply Hsame; reflexivity).
  - destruct (route_counters e w now m) as (A & B & C & D).
    cbn [of_dispatch t_engine t_outcome].
    destruct (aborted _); split; lia.
  - unfold retry_dead_letter.
    destruct ((0 <=? index) && _); [|apply Hsame; reflexivity].
    destruct (dead_letter_queue e !! Z.to_nat index) as [entry|];
      [|apply Hsame; reflexivity].
    destruct (route_counters (set_dlq e (delete (Z.to_nat index) (dead_letter_queue e)))
                w now (set_pending (dl_message entry))) as (A & B & C & D).
    cbn [of_dispatch t_engine t_outcome].
    change (stats_total (set_dlq e _)) with (stats_total e) in *.
    change (stats_sent (set_dlq e _)) with (stats_sent e) in *.
    change (stats_errors (set_dlq e _)) with (stats_errors e) in *.
    destruct (aborted _); split; lia.
Qed.

Lemma history_counters (cs : list (Call World)) : forall e w k,
  let '(e', _, k') := history cs e w k in
  stats_total e <= stats_total e' /\
  stats_total e' - stats_sent e' - stats_errors e' - k'
  = stats_total e - stats_sent e - stats_errors e - k.
Proof.
  induction cs as [|c cs IH]; intros e w k; cbn [history]; [split; lia|].
  destruct (call_counters c e w) as [A B]. cbv zeta in A, B.
  specialize (IH (t_engine (call c e w)) (t_world (call c e w))
                (if aborted (t_outcome (call c e w)) then k + 1 else k)).
  destruct (history cs _ _ _) as [[e' w'] k'].
  destruct IH as [C D]. destruct (aborted _); split; lia.
Qed.

End Counters.


(** A dispatch that a middleware aborts is counted in [total] and in
    neither [sent] nor [errors]. *)
Remark aborted_dispatch_counted_in_total_only :
  let e := Router.add_middleware Props.raising_middleware
             (Router.init (World:=unit) 3 1) in
  let d := Router.route e tt Props.noon (Props.telegram_message 3) in
  Router.d_result d = Raise (RuntimeError "middleware failed") /\
  Router.stats_total (Router.d_engine d) = 1 /\
  Router.stats_sent (Router.d_engine d) = 0 /\
  Router.stats_errors (Router.d_engine d) = 0.
Proof. vm_compute. repeat split. Qed.

(** ** Template rendering in the facade (core.py) *)
Section Facade.
Import Models Router Props.
Context {World : Type}.
Variable jinja_render : string -> Dict -> result string.

(** C6, as the code has it: for a message that names a template, either
    rendering returns a text, possibly empty, which becomes the content
    of the message handed to the routing engine, or rendering raises
    and the dispatch ends at once with a failure whose error is
    "Template render failed: ..." while the routing engine is not
    entered: its counters, dead-letter queue and adapters are left
    untouched and nothing is retried. *)
Theorem send_renders_or_fails (g : Core.Gateway World) (w : World) now m t :
  Core.template_set m = Some t ->
  match Templates.render jinja_render (Core.template_engine g) t
          (template_vars m) with
  | Ok text =>
      Core.send jinja_render g w now m
      = route (Core.router g) w now (Core.set_content m text) /\
      content (Core.set_content m text) = text /\
      stats_total (d_engine (Core.send jinja_render g w now m))
      = stats_total (Core.router g) + 1
  | Raise exc =>
      d_result (Core.send jinja_render g w now m)
      = Ok (mk_SendResult false (id m) (to_channel m) None
              (Some ("Template render failed: " +:+ str_of_exc exc)) 0) /\
      d_engine (Core.send jinja_render g w now m) = Core.router g /\
      d_world (Core.send jinja_render g w now m) = w /\
      d_sleeps (Core.send jinja_render g w now m) = [] /\
      d_message (Core.send jinja_render g w now m) = m
  end.
Proof.
  intros Ht. unfold Core.send. rewrite Ht.
  destruct (Templates.render _ _ _ _) as [text|exc].
  - repeat split. apply route_counters.
  - repeat split.
Qed.
End Facade.

(** The facade theorem on a registered template and on a missing one. *)
Lemma send_renders_or_fails_witness :
  Core.template_set (Props.templated_message "blank") = Some "blank" /\
  Core.send Props.jinja_plain Props.blank_gateway tt Props.noon
    (Props.templated_message "blank")
  = Router.route (Core.router Props.blank_gateway) tt Props.noon
      (Core.set_content (Props.templated_message "blank") "") /\
  Router.d_result
    (Core.send Props.jinja_plain Props.blank_gateway tt Props.noon
       (Props.templated_message "nonexistent_template"))
  = Ok (Models.mk_SendResult false "m-5" Models.TELEGRAM None
          (Some "Template render failed: nonexistent_template") 0).
Proof.
  split; [reflexivity|]. split.
  - pose proof (send_renders_or_fails Props.jinja_plain Props.blank_gateway
                  tt Props.noon (Props.templated_message "blank") "blank"
                  eq_refl) as H.
    change (Templates.render _ _ _ _) with (Ok (A:=string) "") in H.
    exact (proj1 H).
  - pose proof (send_renders_or_fails Props.jinja_plain Props.blank_gateway
                  tt Props.noon
                  (Props.templated_message "nonexistent_template")
                  "nonexistent_template" eq_refl) as H.
    change (Templates.render _ _ _ _)
      with (Raise (A:=string) (TemplateNotFound "nonexistent_template")) in H.
    exact (proj1 H).
Defined.

(** C6 as stated fails: the template "blank" is registered with an
    empty source; rendering succeeds with the empty text, so the
    content is empty, no template error is reported, and the message
    goes through the routing engine, which counts and delivers it. *)
Lemma send_blank_template_is_routed :
  Templates.render Props.jinja_plain
    (Core.template_engine Props.blank_gateway) "blank" [] = Ok "" /\
  Models.content
    (Router.d_message
       (Core.send Props.jinja_plain Props.blank_gateway tt Props.noon
          (Props.templated_message "blank"))) = "" /\
  Router.d_result
    (Core.send Props.jinja_plain Props.blank_gateway tt Props.noon
       (Props.templated_message "blank"))
  = Ok (Models.mk_SendResult true "m-5" Models.TELEGRAM None None 0) /\
  Router.stats_total
    (Router.d_engine
       (Core.send Props.jinja_plain Props.blank_gateway tt Props.noon
          (Props.templated_message "blank"))) = 1 /\
  Router.stats_sent
    (Router.d_engine
       (Core.send Props.jinja_plain Props.blank_gateway tt Props.noon
          (Props.templated_message "blank"))) = 1.
Proof. vm_compute. repeat split. Qed.

(** ** Status updates in the store (store.py) *)
Section StoreUpdates.
Import Store Props.

(** C7, as the code has it: [update_status] changes only the row with
    the given id, and in that row only status, last_error, sent_at and
    updated_at.  With a non-empty error it writes status, last_error
    and updated_at and leaves sent_at alone; without one it writes
    status and updated_at, leaves last_error alone, and stamps sent_at
    with the current time exactly when the status is "sent", whether or
    not sent_at was already set.  The other tables are untouched, and
    an unknown id changes nothing. *)
Theorem update_status_frame now message_id status error (s : MessageStore) :
  delivery_events (update_status now message_id status error s)
    = delivery_events s /\
  scheduled_messages (update_status now message_id status error s)
    = scheduled_messages s /\
  (forall other, other <> message_id ->
     get_message (update_status now message_id status error s) other
     = get_message s other) /\
  (get_message s message_id = None ->
     get_message (update_status now message_id status error s) message_id
     = None) /\
  (forall r, get_message s message_id = Some r ->
     exists r',
       get_message (update_status now message_id status error s) message_id
         = Some r' /\
       id r' = id r /\ from_channel r' = from_channel r /\
       to_channel r' = to_channel r /\ content r' = content r /\
       target r' = target r /\ template r' = template r /\
       template_vars r' = template_vars r /\ metadata r' = metadata r /\
       priority r' = priority r /\ retry_count r' = retry_count r /\
       max_retries r' = max_retries r /\ created_at r' = created_at r /\
       Store.status r' = Some status /\
       updated_at r' = Some now /\
       last_error r' = (if truthy error then error else last_error r) /\
       sent_at r'
       = (if truthy error then sent_at r
          else if String.eqb status "sent" then Some now else sent_at r)).
Proof.
  unfold update_status, get_message.
  destruct (truthy error); cbn [messages delivery_events scheduled_messages].
  - repeat split.
    + intros other Hne. apply lookup_alter_ne. congruence.
    + intros Hnone. rewrite lookup_alter_eq, Hnone. reflexivity.
    + intros r Hr. rewrite lookup_alter_eq, Hr. cbn [fmap option_fmap option_map].
      eexists. split; [reflexivity|]. repeat split.
  - repeat split.
    + intros other Hne. apply lookup_alter_ne. congruence.
    + intros Hnone. rewrite lookup_alter_eq, Hnone. reflexivity.
    + intros r Hr. rewrite lookup_alter_eq, Hr. cbn [fmap option_fmap option_map].
      eexists. split; [reflexivity|]. repeat split.
      cbn [sent_at set_status_sent_at].
      destruct (String.eqb status "sent"); reflexivity.
Qed.
End StoreUpdates.

(** The frame theorem on the sample store. *)
Lemma update_status_frame_witness :
  Store.get_message Props.sample_store "test-msg-001" = Some Props.pending_row /\
  exists r',
    Store.get_message
      (Store.update_status "2024-01-02T00:00:00" "test-msg-001" "sent" None
         Props.sample_store) "test-msg-001" = Some r' /\
    Store.content r' = Some "hi" /\
    Store.sent_at r' = Some "2024-01-02T00:00:00" /\
    Store.get_message
      (Store.update_status "2024-01-02T00:00:00" "test-msg-001" "sent" None
         Props.sample_store) "other" = None.
Proof.
  split; [reflexivity|].
  destruct (update_status_frame "2024-01-02T00:00:00" "test-msg-001" "sent"
              None Props.sample_store) as (_ & _ & Hother & _ & Hrow).
  destruct (Hrow Props.pending_row eq_refl)
    as (r' & Hget & _ & _ & _ & Hc & _ & _ & _ & _ & _ & _ & _ & _ & _ & _ & _ & Hs).
  exists r'. split; [exact Hget|]. split; [exact Hc|]. split; [exact Hs|].
  rewrite (Hother "other"); [reflexivity|discriminate].
Defined.

(** C7 as stated fails: after a first update to "sent" on Jan 2nd the
    row carries that sent_at; a second update to "sent" on Jan 3rd
    replaces it. *)
Lemma update_status_restamps_sent_at :
  Store.sent_at <$>
    Store.get_message
      (Store.update_status "2024-01-02T00:00:00" "test-msg-001" "sent" None
         Props.sample_store) "test-msg-001"
  = Some (Some "2024-01-02T00:00:00") /\
  Store.sent_at <$>
    Store.get_message
      (Store.update_status "2024-01-03T00:00:00" "test-msg-001" "sent" None
         (Store.update_status "2024-01-02T00:00:00" "test-msg-001" "sent" None
            Props.sample_store)) "test-msg-001"
  = Some (Some "2024-01-03T00:00:00") /\
  Some "2024-01-03T00:00:00" <> Some "2024-01-02T00:00:00".
Proof. vm_compute. repeat split. discriminate. Qed.

(** ** Registration of templates and rules *)
Section Registration.
Import Models Router Props.
Context {World : Type}.
Implicit Types (e : RoutingEngine World) (te : Templates.TemplateEngine).

Lemma insert_rule_perm r l : insert_rule r l ≡ₚ r :: l.
Proof.
  induction l as [|x l IH]; cbn [insert_rule]; [reflexivity|].
  destruct (priority r <? priority x); [|reflexivity].
  rewrite IH. apply Permutation_swap.
Qed.

Lemma sort_rules_perm l : sort_rules l ≡ₚ l.
Proof.
  induction l as [|x l IH]; [reflexivity|].
  cbn [sort_rules foldr]. fold (sort_rules l).
  rewrite insert_rule_perm, IH. reflexivity.
Qed.

(** The number of rules registered under a name. *)
Lemma add_rule_perm rule e : rules (add_rule rule e) ≡ₚ rule :: rules e.
Proof.
  cbn [add_rule set_rules rules]. rewrite sort_rules_perm.
  symmetry. apply Permutation_cons_append.
Qed.

(** C8, as the code has it: registering a template under a name
    replaces whatever was registered under it, so registering twice
    leaves the state of registering once with the last text and adds
    no entry; [add_rule] has no such check: every call adds one entry,
    also under a name already in use, and [add_rule] twice with the
    same rule leaves it in the list twice. *)
Theorem registration_by_name :
  (forall name text text' te,
     Templates.register name text (Templates.register name text' te)
     = Templates.register name text te) /\
  (forall name text text' te,
     base.size (Templates._string_templates
             (Templates.register name text (Templates.register name text' te)))
     = base.size (Templates._string_templates (Templates.register name text' te))) /\
  (forall rule e,
     length (rules (add_rule rule e)) = S (length (rules e))) /\
  (forall rule e,
     length (filter (fun r => name r = name rule) (rules (add_rule rule e)))
     = S (length (filter (fun r => name r = name rule) (rules e)))).
Proof.
  repeat split.
  - intros name text text' te. unfold Templates.register.
    cbn [Templates._string_templates Templates._file_env].
    rewrite insert_insert_eq. reflexivity.
  - intros name text text' te. unfold Templates.register.
    cbn [Templates._string_templates Templates._file_env].
    rewrite insert_insert_eq.
    destruct (Templates._string_templates te !! name) as [old|] eqn:Hold.
    + rewrite !map_size_insert_Some by eauto. reflexivity.
    + rewrite !map_size_insert_None by exact Hold. reflexivity.
  - intros rule e. rewrite add_rule_perm. reflexivity.
  - intros rule e. rewrite add_rule_perm.
    rewrite filter_cons_True by reflexivity. reflexivity.
Qed.
End Registration.

(** C8 as stated fails for rules: registering the rule "low" a second
    time yields a second entry under that name, a state different from
    that of registering it once. *)
Lemma add_rule_twice_two_entries :
  map Router.name
    (Router.rules
       (Router.add_rule Props.rule_low
          (Router.add_rule Props.rule_low (Router.init (World:=unit) 3 1))))
  = ["low"; "low"] /\
  map Router.name
    (Router.rules (Router.add_rule Props.rule_low (Router.init (World:=unit) 3 1)))
  = ["low"] /\
  Router.add_rule Props.rule_low
    (Router.add_rule Props.rule_low (Router.init (World:=unit) 3 1))
  <> Router.add_rule Props.rule_low (Router.init (World:=unit) 3 1).
Proof.
  repeat split; try reflexivity.
  intros H. apply (f_equal (fun e => length (Router.rules e))) in H.
  discriminate H.
Qed.

(** ** The token bucket (rate_limiter.py) *)
Section Bucket.
Import RateLimiter.
Local Open Scope Q_scope.
Implicit Types (b : TokenBucket) (calls : list (Q * Q)).




Lemma Qlt_bool_true x y : Qlt_bool x y = true <-> x < y.
Proof.
  unfold Qlt_bool. rewrite negb_true_iff. split.
  - intros H. destruct (Qlt_le_dec x y) as [Hlt|Hle]; [exact Hlt|].
    apply Qle_bool_iff in Hle. congruence.
  - intros Hlt. destruct (Qle_bool y x) eqn:H; [|reflexivity].
    apply Qle_bool_iff in H. lra.
Qed.






End Bucket.


(** ** The rule list under registration and removal (router.py) *)
Section RuleList.
Import Models Router Props.
Context {World : Type}.
Implicit Types (e : RoutingEngine World) (m : Message)
  (r x y : RoutingRule) (l rs : list RoutingRule).

Lemma insert_rule_comm x y l :
  priority x < priority y ->
  insert_rule y (insert_rule x l) = insert_rule x (insert_rule y l).
Proof.
  intros Hxy. induction l as [|z l IH]; cbn [insert_rule].
  - destruct (Z.ltb_spec (priority y) (priority x)); [lia|].
    destruct (Z.ltb_spec (priority x) (priority y)); [reflexivity|lia].
  - destruct (Z.ltb_spec (priority x) (priority z)),
             (Z.ltb_spec (priority y) (priority z));
      cbn [insert_rule];
      repeat match goal with
        | |- context [(?a <? ?b)] => destruct (Z.ltb_spec a b)
        end; try lia; try reflexivity.
    rewrite IH. reflexivity.
Qed.

Lemma foldr_insert_rule_push x acc l :
  foldr insert_rule acc (insert_rule x l)
  = insert_rule x (foldr insert_rule acc l).
Proof.
  induction l as [|y l IH]; [reflexivity|]. cbn [insert_rule].
  destruct (Z.ltb_spec (priority x) (priority y)) as [Hlt|Hge];
    [|reflexivity].
  cbn [foldr]. rewrite IH. apply insert_rule_comm, Hlt.
Qed.

Lemma foldr_insert_rule_sort acc l :
  foldr insert_rule acc (sort_rules l) = foldr insert_rule acc l.
Proof.
  induction l as [|x l IH]; [reflexivity|].
  cbn [sort_rules foldr]. fold (sort_rules l).
  rewrite foldr_insert_rule_push, IH. reflexivity.
Qed.

Lemma sort_rules_snoc_sort l r :
  sort_rules (sort_rules l ++ [r]) = sort_rules (l ++ [r]).
Proof.
  unfold sort_rules at 1 3. rewrite !foldr_app.
  apply foldr_insert_rule_sort.
Qed.

Lemma set_rules_own e : set_rules e (rules e) = e.
Proof. destruct e; reflexivity. Qed.

Lemma add_rules_eq rs e :
  rules e = [] -> add_rules rs e = set_rules e (sort_rules rs).
Proof.
  intros He. induction rs as [|r rs IH] using rev_ind.
  - cbn. rewrite <- He. symmetry. apply set_rules_own.
  - rewrite add_rules_snoc, IH. unfold add_rule.
    cbn [set_rules rules max_retries retry_delay dead_letter_queue
         _channel_handlers _stats _middleware].
    rewrite sort_rules_snoc_sort. reflexivity.
Qed.

Lemma insert_rule_head x l :
  Forall (fun y => priority y <= priority x) l -> insert_rule x l = x :: l.
Proof.
  intros [|y l' Hy _]; [reflexivity|]. cbn [insert_rule].
  destruct (Z.ltb_spec (priority x) (priority y)); [lia|reflexivity].
Qed.

Lemma filter_insert_rule (P : RoutingRule -> Prop)
    `{!forall r, Decision (P r)} x l :
  sorted_desc l ->
  filter P (insert_rule x l)
  = if decide (P x) then insert_rule x (filter P l) else filter P l.
Proof.
  induction l as [|y l IH]; cbn [insert_rule]; intros Hs.
  - rewrite filter_cons, filter_nil. destruct (decide (P x)); reflexivity.
  - destruct Hs as [Hy Hs].
    destruct (Z.ltb_spec (priority x) (priority y)) as [Hlt|Hge].
    + rewrite !(filter_cons _ y), IH by exact Hs.
      destruct (decide (P x)), (decide (P y)); cbn [insert_rule];
        try reflexivity.
      destruct (Z.ltb_spec (priority x) (priority y)); [reflexivity|lia].
    + rewrite (filter_cons _ x).
      destruct (decide (P x)); [|reflexivity].
      symmetry. apply insert_rule_head.
      apply List.Forall_forall. intros z Hz.
      apply list_elem_of_In, list_elem_of_filter in Hz as [_ Hz].
      apply elem_of_cons in Hz as [->|Hz]; [lia|].
      rewrite List.Forall_forall in Hy.
      apply list_elem_of_In in Hz. specialize (Hy _ Hz). lia.
Qed.

Lemma filter_sort_rules (P : RoutingRule -> Prop)
    `{!forall r, Decision (P r)} l :
  filter P (sort_rules l) = sort_rules (filter P l).
Proof.
  induction l as [|x l IH]; [reflexivity|].
  cbn [sort_rules foldr]. fold (sort_rules l).
  rewrite filter_insert_rule by apply sort_rules_sorted.
  rewrite IH, filter_cons. destruct (decide (P x)); reflexivity.
Qed.

Lemma sort_rules_same_priority p l :
  Forall (fun r => priority r = p) l -> sort_rules l = l.
Proof.
  induction 1 as [|x l Hx Hl IH]; [reflexivity|].
  cbn [sort_rules foldr]. fold (sort_rules l). rewrite IH.
  apply insert_rule_head.
  eapply Forall_impl; [exact Hl|]. cbn. intros; lia.
Qed.

Lemma sort_rules_stable l : stable_sorted (sort_rules l) l.
Proof.
  split; [apply sort_rules_perm|]. split; [apply sort_rules_sorted|].
  intros p. rewrite filter_sort_rules.
  apply (sort_rules_same_priority p).
  apply List.Forall_forall. intros r Hr.
  apply list_elem_of_In, list_elem_of_filter in Hr as [Hr _]. exact Hr.
Qed.

(** After any sequence of [add_rule] calls on an engine that held no
    rule, the rule list holds the registered rules, descending by
    priority, the rules of one priority in registration order. *)
Theorem add_rule_keeps_rules_stably_sorted rs e :
  rules e = [] -> stable_sorted (rules (add_rules rs e)) rs.
Proof.
  intros He. rewrite (add_rules_eq rs e He). apply sort_rules_stable.
Qed.

Lemma length_filter_lt_iff (P : RoutingRule -> Prop)
    `{!forall r, Decision (P r)} l :
  (length (filter P l) < length l)%nat <-> exists r, r ∈ l /\ ~ P r.
Proof.
  induction l as [|x l IH].
  - cbn. split; [lia|]. intros (r & Hr & _). inversion Hr.
  - rewrite filter_cons. pose proof (length_filter P l) as Hle.
    destruct (decide (P x)) as [Hx|Hx]; cbn [length].
    + rewrite <- Nat.succ_lt_mono, IH. split.
      * intros (r & Hr & Hn). exists r. split; [right; exact Hr|exact Hn].
      * intros (r & Hr & Hn). exists r. split; [|exact Hn].
        apply elem_of_cons in Hr as [->|Hr]; [contradiction|exact Hr].
    + split; [|lia]. intros _. exists x. split; [left|exact Hx].
Qed.

(** [remove_rule(name)] answers True exactly when a rule of that name
    had been registered, and leaves the engine as if the rules of that
    name had never been registered. *)
Theorem remove_rule_as_never_added rs e nm :
  rules e = [] ->
  ((remove_rule nm (add_rules rs e)).1 = true
   <-> exists r, r ∈ rs /\ name r = nm) /\
  (remove_rule nm (add_rules rs e)).2
  = add_rules (filter (fun r => name r <> nm) rs) e.
Proof.
  intros He. rewrite !(add_rules_eq _ e He). unfold remove_rule.
  cbn [fst snd set_rules rules max_retries retry_delay dead_letter_queue
       _channel_handlers _stats _middleware]. split.
  - rewrite bool_decide_eq_true, length_filter_lt_iff. split.
    + intros (r & Hr & Hn). exists r.
      rewrite sort_rules_perm in Hr. split; [exact Hr|].
      destruct (decide (name r = nm)); [assumption|contradiction].
    + intros (r & Hr & Hn). exists r.
      rewrite sort_rules_perm. split; [exact Hr|]. intros H. contradiction.
  - rewrite filter_sort_rules. reflexivity.
Qed.

Lemma find_head_filter (f : RoutingRule -> bool) l :
  find f l = head (List.filter f l).
Proof.
  induction l as [|x l IH]; [reflexivity|]. cbn [find List.filter].
  destruct (f x); [reflexivity|exact IH].
Qed.

Lemma List_filter_stdpp (f : RoutingRule -> bool) l :
  List.filter f l = filter (fun r => f r = true) l.
Proof.
  induction l as [|x l IH]; [reflexivity|].
  cbn [List.filter]. rewrite filter_cons, IH.
  destruct (f x); destruct (decide _); try reflexivity; congruence.
Qed.

(** [match_all_rules] returns the enabled rules whose predicate holds,
    descending by priority, equal priorities in registration order, and
    [match_rule] returns the first of them. *)
Theorem match_all_rules_in_priority_order rs e m :
  rules e = [] ->
  stable_sorted (match_all_rules (add_rules rs e) m)
    (List.filter (fun r => matches r m) rs) /\
  match_rule (add_rules rs e) m
  = head (match_all_rules (add_rules rs e) m).
Proof.
  intros He. split; [|apply find_head_filter].
  unfold match_all_rules. rewrite (add_rules_eq rs e He).
  cbn [set_rules rules]. rewrite !List_filter_stdpp, filter_sort_rules.
  apply sort_rules_stable.
Qed.
End RuleList.

(** The rule-list theorems on the two sample rules. *)
Lemma add_rule_keeps_rules_stably_sorted_witness :
  Props.stable_sorted
    (Router.rules
       (Props.add_rules [Props.rule_low; Props.rule_high]
          (Router.init (World:=unit) 3 1)))
    [Props.rule_low; Props.rule_high].
Proof.
  apply (add_rule_keeps_rules_stably_sorted
           [Props.rule_low; Props.rule_high] (Router.init 3 1)).
  reflexivity.
Defined.

Lemma remove_rule_as_never_added_witness :
  (Router.remove_rule "low"
     (Props.add_rules [Props.rule_low; Props.rule_high]
        (Router.init (World:=unit) 3 1))).2
  = Props.add_rules
      (filter (fun r => Router.name r <> "low")
         [Props.rule_low; Props.rule_high])
      (Router.init 3 1).
Proof.
  apply (remove_rule_as_never_added [Props.rule_low; Props.rule_high]
           (Router.init 3 1) "low").
  reflexivity.
Defined.

Lemma match_all_rules_in_priority_order_witness :
  Router.match_rule
    (Props.add_rules [Props.rule_low; Props.rule_high]
       (Router.init (World:=unit) 3 1)) (Props.telegram_message 3)
  = head
      (Router.match_all_rules
         (Props.add_rules [Props.rule_low; Props.rule_high]
            (Router.init (World:=unit) 3 1)) (Props.telegram_message 3)).
Proof.
  apply (match_all_rules_in_priority_order
           [Props.rule_low; Props.rule_high] (Router.init 3 1)
           (Props.telegram_message 3)).
  reflexivity.
Defined.

(** ** Backoff, message envelope and dead letters (router.py) *)
Section Dispatching.
Import Models Router Props.
Context {World : Type}.
Implicit Types (handler : Handler World) (e : RoutingEngine World)
  (w : World) (m : Message).








Lemma stat_incr st k k' :
  stat (incr k st) k' = stat st k' + (if decide (k = k') then 1 else 0).
Proof.
  destruct (decide (k = k')) as [->|Hne].
  - apply stat_incr_eq.
  - rewrite stat_incr_ne by exact Hne. lia.
Qed.

Lemma sent_key_decide ch c :
  (if decide ("sent:" +:+ channel_value ch = "sent:" +:+ channel_value c)
   then 1 else 0)
  = (if decide (c = ch) then 1 else 0).
Proof. destruct ch, c; reflexivity. Qed.

Lemma sum_indicator ch (d : Z) :
  foldr Z.add 0 (map (fun c => if decide (c = ch) then d else 0) all_channels)
  = d.
Proof.
  destruct ch; cbn [foldr map all_channels];
    repeat case_decide; try discriminate; try congruence; lia.
Qed.

Ltac deltas_tac :=
  try (left; reflexivity); try (right; reflexivity); try reflexivity;
  try (intros; lia);
  try (intros; rewrite !stat_incr, ?sent_key_decide; repeat case_decide;
       try discriminate; try congruence; lia).

(** What one delivery does to the counters and to the dead-letter
    queue: [ds] is 1 when the message was sent, [dd] is 1 when it was
    dead-lettered. *)
Lemma deliver_deltas e w now m ch :
  let d := deliver e w now m ch in
  exists ds dd tail,
    (ds = 0 \/ ds = 1) /\ (dd = 0 \/ dd = 1) /\ ds + dd <= 1 /\
    stats_sent (d_engine d) = stats_sent e + ds /\
    (forall c, sent_on (d_engine d) c
               = sent_on e c + (if decide (c = ch) then ds else 0)) /\
    stats_dead (d_engine d) = stats_dead e + dd /\
    stats_errors (d_engine d) = stats_errors e + (1 - ds) /\
    dead_letter_queue (d_engine d) = dead_letter_queue e ++ tail /\
    Z.of_nat (length tail) = dd /\
    (dd = 1 ->
     status (d_message d) = DEAD /\
     exists res, d_result d = Ok res /\ success res = false).
Proof.
  unfold deliver, stats_sent, stats_errors, stats_dead, sent_on.
  destruct (_channel_handlers e !! ch) as [handler|].
  - unfold _send_with_retry. cbv zeta. rewrite retry_loop_stats.
    destruct (ls_exit _) as [res m'|last m'];
      cbn [d_engine d_result d_message _stats set_stats set_dlq
           dead_letter_queue].
    + exists 1, 0, []. rewrite app_nil_r. split_and!; deltas_tac.
    + exists 0, 1, [mk_DeadLetterEntry (set_dead m' last) last now
                      (retry_budget e m)].
      split_and!; deltas_tac.
      intros _. split; [reflexivity|]. eexists. split; reflexivity.
  - cbn [d_engine d_result d_message _stats set_stats dead_letter_queue].
    exists 0, 0, []. rewrite app_nil_r. split_and!; deltas_tac.
Qed.

(** The same for a whole [route] call; an aborted dispatch changes
    none of these. *)
Lemma route_deltas e w now m :
  let d := route e w now m in
  exists ch ds dd de tail,
    (ds = 0 \/ ds = 1) /\ (dd = 0 \/ dd = 1) /\ dd <= de /\
    stats_sent (d_engine d) = stats_sent e + ds /\
    (forall c, sent_on (d_engine d) c
               = sent_on e c + (if decide (c = ch) then ds else 0)) /\
    stats_dead (d_engine d) = stats_dead e + dd /\
    stats_errors (d_engine d) = stats_errors e + de /\
    dead_letter_queue (d_engine d) = dead_letter_queue e ++ tail /\
    Z.of_nat (length tail) = dd /\
    (dd = 1 ->
     status (d_message d) = DEAD /\
     exists res, d_result d = Ok res /\ success res = false).
Proof.
  set (e1 := set_stats e (incr "total" (_stats e))).
  assert (H1 : stats_sent e1 = stats_sent e)
    by (unfold stats_sent; cbn; apply stat_incr_ne; discriminate).
  assert (H2 : stats_errors e1 = stats_errors e)
    by (unfold stats_errors; cbn; apply stat_incr_ne; discriminate).
  assert (H3 : stats_dead e1 = stats_dead e)
    by (unfold stats_dead; cbn; apply stat_incr_ne; discriminate).
  assert (H4 : forall c, sent_on e1 c = sent_on e c).
  { intros c. unfold sent_on. cbn. apply stat_incr_ne.
    intros H. symmetry in H. revert H. apply sent_key_ne. tauto. }
  assert (Hd : forall m0 ch,
    let d := deliver e1 w now m0 ch in
    exists ch ds dd de tail,
      (ds = 0 \/ ds = 1) /\ (dd = 0 \/ dd = 1) /\ dd <= de /\
      stats_sent (d_engine d) = stats_sent e + ds /\
      (forall c, sent_on (d_engine d) c
                 = sent_on e c + (if decide (c = ch) then ds else 0)) /\
      stats_dead (d_engine d) = stats_dead e + dd /\
      stats_errors (d_engine d) = stats_errors e + de /\
      dead_letter_queue (d_engine d) = dead_letter_queue e ++ tail /\
      Z.of_nat (length tail) = dd /\
      (dd = 1 ->
       status (d_message d) = DEAD /\
       exists res, d_result d = Ok res /\ success res = false)).
  { intros m0 ch.
    destruct (deliver_deltas e1 w now m0 ch)
      as (ds & dd & tail & A & B & C & D & E & F & G & H & I & J).
    exists ch, ds, dd, (1 - ds), tail.
    rewrite H1 in D. rewrite H2 in G. rewrite H3 in F.
    split_and!; try assumption; try lia.
    intros c. rewrite E, H4. reflexivity. }
  assert (Hab : forall exc m0,
    let d := mk_Dispatch (Raise exc) m0 e1 w [] in
    exists ch ds dd de tail,
      (ds = 0 \/ ds = 1) /\ (dd = 0 \/ dd = 1) /\ dd <= de /\
      stats_sent (d_engine d) = stats_sent e + ds /\
      (forall c, sent_on (d_engine d) c
                 = sent_on e c + (if decide (c = ch) then ds else 0)) /\
      stats_dead (d_engine d) = stats_dead e + dd /\
      stats_errors (d_engine d) = stats_errors e + de /\
      dead_letter_queue (d_engine d) = dead_letter_queue e ++ tail /\
      Z.of_nat (length tail) = dd /\
      (dd = 1 ->
       status (d_message d) = DEAD /\
       exists res, d_result d = Ok res /\ success res = false)).
  { intros exc m0. exists TELEGRAM, 0, 0, 0, []. cbn [d_engine].
    rewrite app_nil_r.
    split_and!; try (left; reflexivity); try reflexivity; try lia.
    intros c. rewrite H4. case_decide; lia. }
  unfold route. fold e1.
  destruct (_apply_middleware _ m) as [m1|exc]; [|apply Hab].
  destruct (match_rule e1 m1) as [rule|]; [|apply Hd].
  destruct (transform rule) as [f|]; [|apply Hd].
  destruct (f m1) as [m2|exc]; [apply Hd|apply Hab].
Qed.

(** A dispatch never removes or reorders dead letters: it leaves the
    queue as it was or appends one entry, and it appends exactly when
    it counts the message as dead, in which case the message has status
    dead and the result is a failure. *)
Theorem route_appends_at_most_one_dead_letter e w now m :
  exists tail,
    dead_letter_queue (d_engine (route e w now m))
      = dead_letter_queue e ++ tail /\
    (length tail <= 1)%nat /\
    stats_dead (d_engine (route e w now m))
      = stats_dead e + Z.of_nat (length tail) /\
    (tail <> [] ->
     status (d_message (route e w now m)) = DEAD /\
     exists res, d_result (route e w now m) = Ok res /\ success res = false).
Proof.
  destruct (route_deltas e w now m)
    as (ch & ds & dd & de & tail & A & B & C & D & E & F & G & H & I & J).
  exists tail. split_and!; try assumption; try lia.
  intros Hne. apply J. destruct tail; [contradiction|]. cbn in I. lia.
Qed.

(** [retry_dead_letter] answers None for an index outside the queue,
    a negative one included; for an index inside, it takes that entry
    out, leaves the other entries in their order, and dispatches the
    entry's message with status pending and retry_count 0; whatever
    that dispatch dead-letters is appended at the end. *)
Theorem retry_dead_letter_pops_entry e w now index :
  (index < 0 \/ Z.of_nat (length (dead_letter_queue e)) <= index ->
   retry_dead_letter e w now index = None) /\
  (0 <= index < Z.of_nat (length (dead_letter_queue e)) ->
   exists entry tail,
     dead_letter_queue e !! Z.to_nat index = Some entry /\
     retry_dead_letter e w now index
     = Some (route (set_dlq e (delete (Z.to_nat index) (dead_letter_queue e)))
               w now (set_pending (dl_message entry))) /\
     (forall d, retry_dead_letter e w now index = Some d ->
        dead_letter_queue (d_engine d)
        = delete (Z.to_nat index) (dead_letter_queue e) ++ tail) /\
     (length tail <= 1)%nat).
Proof.
  unfold retry_dead_letter. split.
  - intros Hout.
    destruct (Z.leb_spec 0 index), (Z.ltb_spec index
      (Z.of_nat (length (dead_letter_queue e)))); cbn [andb];
      try reflexivity; lia.
  - intros Hin.
    destruct (Z.leb_spec 0 index); [|lia].
    destruct (Z.ltb_spec index (Z.of_nat (length (dead_letter_queue e))));
      [|lia]. cbn [andb].
    destruct (lookup_lt_is_Some_2 (dead_letter_queue e) (Z.to_nat index))
      as [entry Hentry]; [lia|].
    rewrite Hentry.
    destruct (route_deltas
                (set_dlq e (delete (Z.to_nat index) (dead_letter_queue e)))
                w now (set_pending (dl_message entry)))
      as (ch & ds & dd & de & tail & _ & Hdd & _ & _ & _ & _ & _ & Hq
          & Hlen & _).
    exists entry, tail. split_and!; try reflexivity; try assumption.
    + intros d [= <-]. exact Hq.
    + lia.
Qed.

(** [get_dead_letters(limit)] with a positive limit returns the
    dictionaries of the newest [limit] entries, oldest first, or of all
    entries when there are fewer; with limit 0 it returns those of the
    whole queue. *)
Theorem get_dead_letters_slice e limit :
  (0 < limit ->
   exists older newest,
     dead_letter_queue e = older ++ newest /\
     get_dead_letters e limit = map DeadLetterEntry_to_dict newest /\
     Z.of_nat (length newest)
     = Z.min limit (Z.of_nat (length (dead_letter_queue e)))) /\
  (limit = 0 ->
   get_dead_letters e limit
   = map DeadLetterEntry_to_dict (dead_letter_queue e)).
Proof.
  unfold get_dead_letters, last_slice. split.
  - intros Hpos. destruct (Z.ltb_spec 0 limit); [|lia].
    exists (take (length (dead_letter_queue e) - Z.to_nat limit)
              (dead_letter_queue e)),
           (drop (length (dead_letter_queue e) - Z.to_nat limit)
              (dead_letter_queue e)).
    split_and!.
    + symmetry. apply take_drop.
    + reflexivity.
    + rewrite length_drop. lia.
  - intros ->. reflexivity.
Qed.

Lemma sum_sent_on_add e e' ch ds :
  (forall c, sent_on e' c = sent_on e c + (if decide (c = ch) then ds else 0)) ->
  sum_sent_on e' = sum_sent_on e + ds.
Proof.
  intros H. unfold sum_sent_on.
  assert (Hl : forall l,
    foldr Z.add 0 (map (sent_on e') l)
    = foldr Z.add 0 (map (sent_on e) l)
      + foldr Z.add 0 (map (fun c => if decide (c = ch) then ds else 0) l)).
  { induction l as [|c l IH]; [reflexivity|].
    cbn [map foldr]. rewrite H, IH. lia. }
  rewrite Hl, sum_indicator. reflexivity.
Qed.

Lemma route_counters_ok e w now m :
  counters_ok e -> counters_ok (d_engine (route e w now m)).
Proof.
  intros (A & B & C & D).
  destruct (route_deltas e w now m)
    as (ch & ds & dd & de & tail & Hds & Hdd & Hde & Hs & Hon & Hd & He
        & Hq & Hlen & _).
  unfold counters_ok. rewrite Hs, Hd, He, Hq, length_app.
  rewrite (sum_sent_on_add e _ ch ds Hon). lia.
Qed.

Lemma same_stats_counters_ok e e' :
  _stats e' = _stats e ->
  (length (dead_letter_queue e') <= length (dead_letter_queue e))%nat ->
  counters_ok e -> counters_ok e'.
Proof.
  unfold counters_ok, stats_sent, stats_dead, stats_errors, sum_sent_on,
    sent_on. intros -> Hlen (A & B & C & D). split_and!; try assumption. lia.
Qed.

Lemma call_counters_ok (c : Call World) e w :
  counters_ok e -> counters_ok (t_engine (call c e w)).
Proof.
  intros H.
  destruct c as [now m|now index|rule|nm|ch handler|fn|]; cbn [call];
    try (cbn [t_engine]; apply (same_stats_counters_ok e);
         [reflexivity|cbn; lia|exact H]).
  - apply route_counters_ok, H.
  - unfold retry_dead_letter.
    destruct ((0 <=? index) && _);
      [|apply (same_stats_counters_ok e); [reflexivity|cbn; lia|exact H]].
    destruct (dead_letter_queue e !! Z.to_nat index) as [entry|] eqn:Hentry;
      [|apply (same_stats_counters_ok e); [reflexivity|cbn; lia|exact H]].
    apply route_counters_ok.
    apply (same_stats_counters_ok e); [reflexivity| |exact H].
    cbn [set_dlq dead_letter_queue].
    rewrite length_delete by (rewrite Hentry; eauto). lia.
Qed.

Lemma history_counters_ok (cs : list (Call World)) : forall e w k,
  counters_ok e -> counters_ok (history cs e w k).1.1.
Proof.
  induction cs as [|c cs IH]; intros e w k H; cbn [history]; [exact H|].
  apply IH, call_counters_ok, H.
Qed.

(** Whatever operations are run on a fresh engine, the [sent] counter
    is the sum of the per-channel [sent:<channel>] counters, the
    dead-letter queue holds at most as many entries as the [dead]
    counter says, and [dead] is at most [errors]. *)
Theorem counters_stay_consistent (cs : list (Call World)) retries delay w :
  counters_ok (history cs (init retries delay) w 0).1.1.
Proof.
  apply history_counters_ok. unfold counters_ok.
  split_and!; reflexivity || (cbn; lia).
Qed.

(** On a fresh engine, after any operations, [total] is [sent] plus
    [errors] plus the number of dispatches that an exception of a
    middleware or of a rule transform aborted. *)
Theorem total_accounts_for_aborted (cs : list (Call World)) retries delay w :
  stats_total (history cs (init retries delay) w 0).1.1
  = stats_sent (history cs (init retries delay) w 0).1.1
    + stats_errors (history cs (init retries delay) w 0).1.1
    + (history cs (init retries delay) w 0).2.
Proof.
  pose proof (history_counters cs (init retries delay) w 0) as H.
  destruct (history cs _ _ _) as [[e' w'] k']. cbn [fst snd].
  destruct H as [_ H].
  change (stats_total (init retries delay)) with 0 in H.
  change (stats_sent (init retries delay)) with 0 in H.
  change (stats_errors (init retries delay)) with 0 in H.
  lia.
Qed.
End Dispatching.


(** Retrying the dead letter of the sample session, and an index
    outside its queue. *)
Lemma retry_dead_letter_pops_entry_witness :
  Router.retry_dead_letter
    (Props.history (take 4 Props.sample_calls) (Router.init 1 1) tt 0).1.1
    tt Props.noon (-1) = None /\
  exists entry (tail : list Router.DeadLetterEntry),
    Router.dead_letter_queue
      (Props.history (take 4 Props.sample_calls) (Router.init 1 1) tt 0).1.1
      !! 0%nat = Some entry /\
    (length tail <= 1)%nat.
Proof.
  destruct (retry_dead_letter_pops_entry
              (Props.history (take 4 Props.sample_calls) (Router.init 1 1)
                 tt 0).1.1 tt Props.noon (-1)) as [Hout _].
  split; [apply Hout; left; reflexivity|].
  destruct (retry_dead_letter_pops_entry
              (Props.history (take 4 Props.sample_calls) (Router.init 1 1)
                 tt 0).1.1 tt Props.noon 0) as [_ Hin].
  assert (Hrange : 0 <= 0 < Z.of_nat (length (Router.dead_letter_queue
            (Props.history (take 4 Props.sample_calls) (Router.init 1 1)
               tt 0).1.1)))
    by (vm_compute; split; [discriminate|reflexivity]).
  destruct (Hin Hrange) as (entry & tail & Hentry & _ & _ & Hlen).
  exists entry, tail. split; [exact Hentry|exact Hlen].
Defined.

(** The slice theorem on the queue of the sample session. *)
Lemma get_dead_letters_slice_witness :
  Router.get_dead_letters
    (Props.history (take 4 Props.sample_calls) (Router.init 1 1) tt 0).1.1 0
  = map Router.DeadLetterEntry_to_dict
      (Router.dead_letter_queue
         (Props.history (take 4 Props.sample_calls) (Router.init 1 1)
            tt 0).1.1).
Proof.
  apply (proj2 (get_dead_letters_slice
                  (Props.history (take 4 Props.sample_calls)
                     (Router.init 1 1) tt 0).1.1 0)).
  reflexivity.
Defined.

(** ** Broadcast through the facade (core.py) *)
Section FacadeBroadcast.
Import Models Router Props.
Context {World : Type}.
Variable jinja_render : string -> Dict -> result string.
Implicit Types (g : Core.Gateway World) (w : World).

Lemma broadcast_loop_results chs : forall stamps k text targets meta prio g w acc rs,
  Core.b_results
    (Core.broadcast_loop jinja_render chs stamps k text targets meta prio
       g w acc) = Ok rs ->
  length rs = (length acc + length (addressed targets chs))%nat /\
  stats_total
    (Core.router
       (Core.b_gateway
          (Core.broadcast_loop jinja_render chs stamps k text targets meta
             prio g w acc)))
  = stats_total (Core.router g) + Z.of_nat (length (addressed targets chs)) /\
  exists new, rs = acc ++ new.
Proof.
  induction chs as [|ch chs IH]; intros stamps k text targets meta prio g w acc rs;
    cbn [Core.broadcast_loop addressed List.filter].
  - cbn. intros [= <-]. rewrite Z.add_0_r, Nat.add_0_r.
    split; [reflexivity|]. split; [reflexivity|].
    exists []. symmetry. apply app_nil_r.
  - fold (addressed targets chs).
    destruct (String.eqb (default "" (targets !! channel_value ch)) "");
      cbn [negb]; [apply IH|].
    cbv zeta.
    set (msg := Core.new_message _ _ ch text _ meta prio).
    destruct (d_result (Core.send jinja_render g w _ msg)) as [r|exc] eqn:Hr;
      [|discriminate].
    intros H. apply IH in H as (Hlen & Htot & new & Hrs).
    rewrite length_app in Hlen. cbn [length] in *.
    split; [lia|]. split;
      [|exists (r :: new); rewrite Hrs, <- app_assoc; reflexivity].
    rewrite Htot. cbn [Core.router Core.set_router].
    unfold Core.send. cbn [Core.template_set msg Core.new_message template].
    destruct (route_counters (Core.router g) w
                (Core.dispatched (stamps k)) msg) as (Ht & _).
    fold msg. rewrite Ht. lia.
Qed.

(** [Gateway.broadcast] dispatches one message for each listed channel
    that has a non-empty entry in [targets] and skips the others: when
    it returns, it returns that many results and the routing engine's
    [total] has grown by that number.  With no channel addressed it
    returns no result and leaves gateway and world as they were. *)
Theorem broadcast_one_result_per_addressed_channel
    stamps text chs targets meta prio g w :
  (forall rs,
     Core.b_results
       (Core.broadcast jinja_render stamps text chs targets meta prio g w)
     = Ok rs ->
     length rs = length (addressed targets chs) /\
     stats_total
       (Core.router
          (Core.b_gateway
             (Core.broadcast jinja_render stamps text chs targets meta prio
                g w)))
     = stats_total (Core.router g)
       + Z.of_nat (length (addressed targets chs))) /\
  (addressed targets chs = [] ->
   Core.broadcast jinja_render stamps text chs targets meta prio g w
   = Core.mk_Broadcast (Ok []) g w).
Proof.
  unfold Core.broadcast. split.
  - intros rs H. apply broadcast_loop_results in H as (Hlen & Htot & _).
    split; [exact Hlen|exact Htot].
  - generalize (default [] meta) as md. intros md.
    generalize 0%nat as k.
    induction chs as [|ch chs IH]; intros k Hnone; [reflexivity|].
    cbn [Core.broadcast_loop addressed List.filter] in *.
    destruct (String.eqb (default "" (targets !! channel_value ch)) "");
      cbn [negb] in Hnone; [apply IH, Hnone|discriminate].
Qed.
End FacadeBroadcast.

(** The broadcast theorem on the gateway with a telegram adapter:
    telegram is addressed, discord has no target. *)
Lemma broadcast_one_result_per_addressed_channel_witness :
  exists rs,
    Core.b_results
      (Core.broadcast Props.jinja_plain Props.sample_stamps "hello"
         [Models.TELEGRAM; Models.DISCORD] {[ "telegram" := "123" ]} None
         Models.NORMAL Props.blank_gateway tt) = Ok rs /\
    length rs = 1%nat.
Proof.
  assert (Hrun : Core.b_results
      (Core.broadcast Props.jinja_plain Props.sample_stamps "hello"
         [Models.TELEGRAM; Models.DISCORD] {[ "telegram" := "123" ]} None
         Models.NORMAL Props.blank_gateway tt)
    = Ok [Models.mk_SendResult true "b-0" Models.TELEGRAM None None 0])
    by (vm_compute; reflexivity).
  eexists. split; [exact Hrun|].
  exact (proj1 (proj1 (broadcast_one_result_per_addressed_channel
                         Props.jinja_plain Props.sample_stamps "hello"
                         [Models.TELEGRAM; Models.DISCORD]
                         {[ "telegram" := "123" ]} None Models.NORMAL
                         Props.blank_gateway tt) _ Hrun)).
Defined.

(** ** The template registry (templates.py) *)
Section TemplateRegistry.
Import Templates.
Variable jinja_render : string -> Dict -> result string.
Variable jinja_compile : string -> result unit.
Implicit Types (te : TemplateEngine) (name : string).

(** A name that is neither registered in memory nor a file of the
    template directory is reported absent, and rendering it raises
    TemplateNotFound with that name. *)
Theorem render_unknown_name te name variables :
  _string_templates te !! name = None ->
  (forall files, _file_env te = Some files -> files !! name = None) ->
  render jinja_render te name variables = Raise (TemplateNotFound name) /\
  has_template jinja_compile te name = Ok false.
Proof.
  intros Hmem Hfiles. unfold render, has_template. rewrite Hmem.
  destruct (_file_env te) as [files|]; [|split; reflexivity].
  rewrite (Hfiles files eq_refl). split; reflexivity.
Qed.

(** [unregister] answers True exactly when the name was registered in
    memory; afterwards the name renders as the template directory alone
    would have it, the other names render as before, and unregistering
    a name that was just registered for the first time gives the
    engine back. *)
Theorem unregister_falls_back_to_files name te variables :
  ((unregister name te).1 = true <-> is_Some (_string_templates te !! name)) /\
  render jinja_render (unregister name te).2 name variables
    = render jinja_render (mk_TemplateEngine ∅ (_file_env te)) name variables /\
  (forall other, other <> name ->
     render jinja_render (unregister name te).2 other variables
     = render jinja_render te other variables) /\
  (forall text, _string_templates te !! name = None ->
     (unregister name (register name text te)).2 = te).
Proof.
  split_and!.
  - unfold unregister. destruct (_string_templates te !! name) eqn:H; cbn.
    + split; eauto.
    + split; [discriminate|]. intros [x Hx]. discriminate.
  - unfold unregister, render.
    destruct (_string_templates te !! name) eqn:H;
      cbn [snd _string_templates _file_env].
    + rewrite lookup_delete_eq, lookup_empty. reflexivity.
    + rewrite H, lookup_empty. reflexivity.
  - intros other Hne. unfold unregister, render.
    destruct (_string_templates te !! name) eqn:H;
      cbn [snd _string_templates _file_env]; [|reflexivity].
    rewrite lookup_delete_ne by congruence. reflexivity.
  - intros text Hnone. unfold unregister, register.
    cbn [_string_templates _file_env]. rewrite lookup_insert_eq.
    cbn [snd _string_templates _file_env].
    rewrite delete_insert_eq, delete_id by exact Hnone.
    destruct te; reflexivity.
Qed.
End TemplateRegistry.

(** Rendering an unknown name on the engine of the sample gateway. *)
Lemma render_unknown_name_witness :
  Templates.render Props.jinja_plain
    (Core.template_engine Props.blank_gateway) "nonexistent_template" []
  = Raise (TemplateNotFound "nonexistent_template").
Proof.
  apply (render_unknown_name Props.jinja_plain (fun _ => Ok tt)
           (Core.template_engine Props.blank_gateway)
           "nonexistent_template" []).
  - reflexivity.
  - intros files H. discriminate H.
Defined.

(** Registering "alert" on that engine and unregistering it again. *)
Lemma unregister_falls_back_to_files_witness :
  (Templates.unregister "alert"
     (Templates.register "alert" "{{ level }}"
        (Core.template_engine Props.blank_gateway))).2
  = Core.template_engine Props.blank_gateway.
Proof.
  apply (unregister_falls_back_to_files Props.jinja_plain "alert"
           (Core.template_engine Props.blank_gateway) []).
  reflexivity.
Defined.

(** ** Saving, counting and logging in the store (store.py) *)
Section StoreRows.
Import Store Props.
Variable json_dumps : Value -> result string.
Implicit Types (s : MessageStore) (r : MessageRow).

Ltac step_bind :=
  match goal with
  | H : context [mbind _ ?x] |- _ =>
      let E := fresh "E" in destruct x eqn:E; cbn [mbind outcome_bind] in H;
      try discriminate H
  end.


(** A saved message is stored under the id of its dictionary. *)
Lemma save_message_stores now msg_dict s s' :
  save_message json_dumps now msg_dict s = Done s' ->
  exists i row,
    dict_get msg_dict "id" = Some (VStr i) /\ get_message s' i = Some row.
Proof.
  unfold save_message, dict_index. intros H.
  destruct (dict_get msg_dict "id") as [id_v|] eqn:Hid;
    cbn [of_result mbind outcome_bind] in H; [|discriminate H].
  repeat step_bind.
  match goal with
  | E : of_result (as_str "id" id_v) = Done _ |- _ =>
      destruct id_v; try discriminate E; cbn in E; injection E as ->
  end.
  injection H as <-.
  eexists _, _. split; [reflexivity|].
  unfold get_message. cbn [messages]. apply lookup_insert_eq.
Qed.


(** Saving the dictionary of a message, as the command line does,
    stores a row that carries the message's id, channel names, content,
    target, template name, metadata as JSON, priority, status,
    retry_count, last_error and timestamps. *)
Theorem save_message_of_to_dict now (m : Models.Message) s md empty :
  json_dumps (VDict (Models.metadata m)) = Ok md ->
  json_dumps (VDict []) = Ok empty ->
  exists s' row,
    save_message json_dumps now (Models.to_dict m) s = Done s' /\
    get_message s' (Models.id m) = Some row /\
    id row = Models.id m /\
    from_channel row = Models.channel_value (Models.from_channel m) /\
    to_channel row = Models.channel_value (Models.to_channel m) /\
    content row = Some (Models.content m) /\
    target row = Models.target m /\
    template row = Models.template m /\
    metadata row = Some md /\
    priority row = Some (Models.priority_value (Models.priority m)) /\
    status row = Some (Models.status_value (Models.status m)) /\
    retry_count row = Some (Models.retry_count m) /\
    last_error row = Models.last_error m /\
    created_at row = isoformat (Models.created_at m) /\
    sent_at row = isoformat <$> Models.sent_at m /\
    updated_at row = Some now.
Proof.
  intros Hmd Hempty.
  unfold save_message, Models.to_dict, dict_index, dict_get_default.
  cbn [dict_get String.eqb Ascii.eqb Bool.eqb default of_result
       mbind outcome_bind].
  unfold Datatypes.id. rewrite Hmd, Hempty.
  cbn [of_result mbind outcome_bind as_str text_not_null text_null int_null].
  destruct (Models.template m), (Models.last_error m), (Models.sent_at m);
    cbn [Models.opt_str_value text_null mbind outcome_bind];
    (eexists _, _; split; [reflexivity|]; unfold get_message;
     cbn [messages]; rewrite lookup_insert_eq;
     split_and!; reflexivity).
Qed.

(** An event can only be logged for a stored message: for an unknown
    message id [log_event] fails on the foreign key; once
    [save_message] has stored a message, an event for its id is
    accepted and appended after the existing events, and nothing else
    changes. *)
Theorem log_event_needs_message now message_id ev channel det s :
  (get_message s message_id = None ->
   log_event now message_id ev channel det s
   = IntegrityError "FOREIGN KEY constraint failed") /\
  (forall saved_at msg_dict s0,
     save_message json_dumps saved_at msg_dict s0 = Done s ->
     dict_get msg_dict "id" = Some (VStr message_id) ->
     log_event now message_id ev channel det s
     = Done (mk_MessageStore (messages s)
               (delivery_events s
                  ++ [mk_EventRow message_id ev channel det now])
               (scheduled_messages s))).
Proof.
  unfold log_event, get_message. split.
  - intros ->. reflexivity.
  - intros saved_at msg_dict s0 Hsave Hid.
    destruct (save_message_stores _ _ _ _ Hsave) as (i & row & Hi & Hrow).
    rewrite Hid in Hi. injection Hi as <-.
    unfold get_message in Hrow. rewrite Hrow. reflexivity.
Qed.

Lemma alter_as_insert (f : MessageRow -> MessageRow) i
    (m : gmap string MessageRow) r :
  m !! i = Some r -> alter f i m = <[i := f r]> (delete i m).
Proof.
  intros Hr. apply map_eq. intros j. destruct (decide (i = j)) as [<-|Hne].
  - rewrite lookup_alter_eq, lookup_insert_eq, Hr. reflexivity.
  - rewrite lookup_alter_ne, lookup_insert_ne, lookup_delete_ne by exact Hne.
    reflexivity.
Qed.

Lemma alter_absent (f : MessageRow -> MessageRow) i
    (m : gmap string MessageRow) :
  m !! i = None -> alter f i m = m.
Proof.
  intros Hr. apply map_eq. intros j. destruct (decide (i = j)) as [<-|Hne].
  - rewrite lookup_alter_eq, Hr. reflexivity.
  - rewrite lookup_alter_ne by exact Hne. reflexivity.
Qed.

Lemma count_split channel status (m : gmap string MessageRow) i r :
  m !! i = Some r ->
  size (filter (fun kr => row_matches channel status kr.2 = true) m)
  = ((if row_matches channel status r then 1 else 0)
     + size (filter (fun kr => row_matches channel status kr.2 = true)
               (delete i m)))%nat.
Proof.
  intros Hr. rewrite <- (insert_delete_id m i r Hr) at 1.
  destruct (row_matches channel status r) eqn:Hm.
  - rewrite map_filter_insert_True by exact Hm.
    rewrite map_size_insert_None; [reflexivity|].
    apply map_lookup_filter_None. left. apply lookup_delete_eq.
  - rewrite map_filter_insert_False by (cbn; rewrite Hm; discriminate).
    rewrite delete_delete_eq. reflexivity.
Qed.

(** How a change of one row moves a count. *)
Lemma count_alter channel status f i (m : gmap string MessageRow) r :
  m !! i = Some r ->
  (size (filter (fun kr => row_matches channel status kr.2 = true)
           (alter f i m))
   + (if row_matches channel status r then 1 else 0)
   = size (filter (fun kr => row_matches channel status kr.2 = true) m)
     + (if row_matches channel status (f r) then 1 else 0))%nat.
Proof.
  intros Hr. rewrite (count_split channel status m i r Hr).
  rewrite (alter_as_insert f i m r Hr).
  rewrite (count_split channel status (<[i:=f r]> (delete i m)) i (f r))
    by apply lookup_insert_eq.
  rewrite delete_insert_eq, delete_delete_eq. lia.
Qed.

(** [update_status] never changes how many messages there are, in all
    or per channel; and moving a stored message that is not yet sent
    to "sent" adds one to the count of sent messages. *)
Theorem update_status_moves_counts now message_id st error s :
  (forall channel,
     count_messages (update_status now message_id st error s) channel None
     = count_messages s channel None) /\
  (forall r,
     get_message s message_id = Some r ->
     status r <> Some "sent" ->
     count_messages (update_status now message_id "sent" error s)
       None (Some "sent")
     = S (count_messages s None (Some "sent"))).
Proof.
  split.
  - intros channel. unfold count_messages, update_status.
    destruct (messages s !! message_id) as [r|] eqn:Hr.
    + destruct (truthy error); cbn [messages].
      * pose proof (count_alter channel None
                      (set_status_error st error now) _ _ _ Hr) as H.
        unfold row_matches in *. cbn [given to_channel set_status_error] in *.
        lia.
      * pose proof (count_alter channel None
                      (set_status_sent_at st
                         (if String.eqb st "sent" then Some now else None) now)
                      _ _ _ Hr) as H.
        unfold row_matches in *.
        cbn [given to_channel set_status_sent_at] in *. lia.
    + destruct (truthy error); cbn [messages];
        rewrite alter_absent by exact Hr; reflexivity.
  - intros r Hr Hns. unfold get_message in Hr.
    unfold count_messages, update_status.
    assert (Hold : row_matches None (Some "sent") r = false).
    { unfold row_matches. cbn [given String.eqb andb].
      destruct (status r) as [x|]; [|reflexivity].
      destruct (String.eqb_spec x "sent"); [congruence|reflexivity]. }
    destruct (truthy error); cbn [messages].
    + pose proof (count_alter None (Some "sent")
                    (set_status_error "sent" error now) _ _ _ Hr) as H.
      rewrite Hold in H.
      change (row_matches None (Some "sent")
                (set_status_error "sent" error now r)) with true in H.
      cbv beta iota in H. lia.
    + pose proof (count_alter None (Some "sent")
                    (set_status_sent_at "sent"
                       (if String.eqb "sent" "sent" then Some now else None)
                       now) _ _ _ Hr) as H.
      rewrite Hold in H.
      change (row_matches None (Some "sent") (set_status_sent_at _ _ _ r))
        with true in H.
      cbv beta iota in H. lia.
Qed.

(** [save_scheduled] accepts a schedule id once: under a new id it
    stores a pending entry, which is due from its scheduled time on
    (timestamps compared as text), and a second save under that id
    fails on the primary key. *)
Theorem save_scheduled_once now schedule_id data due s text :
  json_dumps data = Ok text ->
  scheduled_messages s !! schedule_id = None ->
  exists s' row,
    save_scheduled json_dumps now schedule_id data due s = Done s' /\
    scheduled_messages s' !! schedule_id = Some row /\
    messages s' = messages s /\
    (forall t, is_due t row = String.leb due t) /\
    (forall later data' due',
       save_scheduled json_dumps later schedule_id data' due' s'
       = match json_dumps data' with
         | Ok _ =>
             IntegrityError "UNIQUE constraint failed: scheduled_messages.id"
         | Raise e => Failed e
         end).
Proof.
  intros Hjson Hnew. unfold save_scheduled. rewrite Hjson.
  cbn [of_result mbind outcome_bind]. rewrite Hnew.
  eexists _, _. split; [reflexivity|].
  cbn [scheduled_messages messages]. rewrite lookup_insert_eq.
  split_and!; try reflexivity.
  intros later data' due'. destruct (json_dumps data'); [|reflexivity].
  reflexivity.
Qed.

(** Once [mark_scheduled_done] has run for an id, the entry under that
    id is never due again, whatever the time; the other entries and
    the messages are as before.  [delete_scheduled] answers True
    exactly when there was an entry under the id, and leaves none. *)
Theorem scheduled_done_is_never_due now schedule_id res s :
  (forall t row,
     scheduled_messages (mark_scheduled_done now schedule_id res s)
       !! schedule_id = Some row ->
     is_due t row = false) /\
  (forall other, other <> schedule_id ->
     scheduled_messages (mark_scheduled_done now schedule_id res s) !! other
     = scheduled_messages s !! other) /\
  messages (mark_scheduled_done now schedule_id res s) = messages s /\
  ((delete_scheduled schedule_id s).1 = true
   <-> is_Some (scheduled_messages s !! schedule_id)) /\
  scheduled_messages (delete_scheduled schedule_id s).2 !! schedule_id = None.
Proof.
  unfold mark_scheduled_done, delete_scheduled.
  cbn [scheduled_messages messages fst snd]. split_and!.
  - intros t row. rewrite lookup_alter_eq.
    destruct (scheduled_messages s !! schedule_id); [|discriminate].
    cbn. intros [= <-]. reflexivity.
  - intros other Hne. apply lookup_alter_ne. congruence.
  - reflexivity.
  - apply bool_decide_eq_true.
  - apply lookup_delete_eq.
Qed.
End StoreRows.


Lemma save_message_of_to_dict_witness :
  exists s' row,
    Store.save_message Props.json_sample "2024-01-02T00:00:00"
      (Models.to_dict Props.sample_message) Props.sample_store = Store.Done s' /\
    Store.get_message s' "m-1" = Some row /\
    Store.status row = Some "sent".
Proof.
  destruct (save_message_of_to_dict Props.json_sample "2024-01-02T00:00:00"
              Props.sample_message Props.sample_store "{urgent}" "{}"
              eq_refl eq_refl)
    as (s' & row & Hs & Hrow & _ & _ & _ & _ & _ & _ & _ & _ & Hst & _).
  exists s', row. split; [exact Hs|]. split; [exact Hrow|exact Hst].
Defined.

(** Logging on the sample store: an unknown id, and a saved one. *)
Lemma log_event_needs_message_witness :
  Store.log_event "2024-01-02T00:00:00" "nonexistent" "created" None None
    Props.sample_store
  = Store.IntegrityError "FOREIGN KEY constraint failed".
Proof.
  apply (proj1 (log_event_needs_message Props.json_sample
                  "2024-01-02T00:00:00" "nonexistent" "created" None None
                  Props.sample_store)).
  reflexivity.
Defined.

(** Marking the sample message as sent. *)
Lemma update_status_moves_counts_witness :
  Store.count_messages
    (Store.update_status "2024-01-02T00:00:00" "test-msg-001" "sent" None
       Props.sample_store) None (Some "sent")
  = S (Store.count_messages Props.sample_store None (Some "sent")).
Proof.
  apply (proj2 (update_status_moves_counts "2024-01-02T00:00:00"
                  "test-msg-001" "sent" None Props.sample_store)
           Props.pending_row).
  - reflexivity.
  - discriminate.
Defined.

(** Scheduling on the sample store, which holds no scheduled entry. *)
Lemma save_scheduled_once_witness :
  exists s',
    Store.save_scheduled Props.json_sample "2024-01-02T00:00:00" "sched-1"
      (VDict []) "2024-01-03T00:00:00" Props.sample_store = Store.Done s'.
Proof.
  destruct (save_scheduled_once Props.json_sample "2024-01-02T00:00:00"
              "sched-1" (VDict []) "2024-01-03T00:00:00" Props.sample_store
              "{}" eq_refl eq_refl) as (s' & row & Hs & _).
  exists s'. exact Hs.
Defined.

Lemma scheduled_done_is_never_due_witness :
  Store.is_due "2024-01-04T00:00:00"
    (Store.mk_ScheduledRow "{}" "2024-01-03T00:00:00" (Some "executed")
       (Some "2024-01-03T00:00:01") None "2024-01-02T00:00:00") = false.
Proof.
  apply (proj1 (scheduled_done_is_never_due "2024-01-03T00:00:01" "sched-1"
                  None
                  (Store.mk_MessageStore ∅ []
                     {[ "sched-1" :=
                          Store.mk_ScheduledRow "{}" "2024-01-03T00:00:00"
                            (Some "pending") None None
                            "2024-01-02T00:00:00" ]}))
           "2024-01-04T00:00:00").
  reflexivity.
Defined.
(** ** The token bucket over runs of calls (rate_limiter.py) *)
Section BucketRuns.
Import RateLimiter Props.
Local Open Scope Q_scope.
Implicit Types (b : TokenBucket) (calls : list (Q * Q)).

(** What one call does to the bucket, whatever it answers. *)
Lemma try_consume_step tokens t_refill now b :
  let ok := (try_consume tokens t_refill now b).1 in
  let b' := (try_consume tokens t_refill now b).2 in
  config b' = config b /\
  _last_refill b' = t_refill /\
  _total_waited_ms b' = _total_waited_ms b /\
  (if ok
   then _tokens b' == _tokens (_refill t_refill b) - tokens /\
        tokens <= _tokens (_refill t_refill b) /\
        _last_consume b' = now /\
        (0 < _last_consume b ->
         inject_Z (cooldown_ms (config b)) <= (now - _last_consume b) * 1000) /\
        _total_consumed b' = (_total_consumed b + 1)%Z /\
        _total_rejected b' = _total_rejected b
   else _tokens b' = _tokens (_refill t_refill b) /\
        _last_consume b' = _last_consume b /\
        _total_consumed b' = _total_consumed b /\
        _total_rejected b' = (_total_rejected b + 1)%Z).
Proof.
  unfold try_consume. cbn [_refill config _last_consume].
  destruct (Qlt_bool 0 (_last_consume b)) eqn:Hpos; cbn [andb].
  - destruct (Qlt_bool _ (inject_Z (cooldown_ms (config b)))) eqn:Hcd.
    + cbn. split_and!; reflexivity.
    + assert (Hsp : inject_Z (cooldown_ms (config b))
                    <= (now - _last_consume b) * 1000).
      { destruct (Qlt_le_dec ((now - _last_consume b) * 1000)
                    (inject_Z (cooldown_ms (config b)))) as [Hlt|Hle];
          [|exact Hle].
        apply Qlt_bool_true in Hlt. congruence. }
      destruct (Qle_bool tokens _) eqn:Hle; cbn.
      * apply Qle_bool_iff in Hle. split_and!; try reflexivity; auto.
      * split_and!; reflexivity.
  - destruct (Qle_bool tokens _) eqn:Hle; cbn.
    + apply Qle_bool_iff in Hle. split_and!; try reflexivity; auto.
      intros Hlast. apply Qlt_bool_true in Hlast. congruence.
    + split_and!; reflexivity.
Qed.

(** The bucket's own counters count the calls: over any run,
    [_total_consumed] grows by the number of admitted calls and
    [_total_rejected] by the number of refused ones, and every call is
    answered. *)
Theorem run_counts_every_call calls : forall b,
  length (run calls b).1 = length calls /\
  _total_consumed (run calls b).2
  = (_total_consumed b + admitted (run calls b).1)%Z /\
  _total_rejected (run calls b).2
  = (_total_rejected b
     + (Z.of_nat (length calls) - admitted (run calls b).1))%Z.
Proof.
  induction calls as [|[t_refill now] calls IH]; intros b.
  - unfold admitted. cbn. split_and!; [reflexivity|lia|lia].
  - cbn [run].
    pose proof (try_consume_step 1 t_refill now b) as H. cbv zeta in H.
    destruct (try_consume 1 t_refill now b) as [ok b1]. cbn [fst snd] in H.
    specialize (IH b1). destruct (run calls b1) as [oks b2].
    cbn [fst snd] in *. destruct IH as (Hlen & Hc & Hr).
    destruct H as (_ & _ & _ & H).
    unfold admitted in *. cbn [length List.filter].
    destruct ok; cbn [Datatypes.id length].
    + destruct H as (_ & _ & _ & _ & Hc1 & Hr1). split_and!; lia.
    + destruct H as (_ & _ & Hc1 & Hr1). split_and!; lia.
Qed.






Lemma py_min_ge x y z : z <= x -> z <= y -> z <= py_min x y.
Proof. intros Hx Hy. unfold py_min. destruct (Qle_bool x y); assumption. Qed.



End BucketRuns.

Section BucketExamples.
Local Open Scope Q_scope.




End BucketExamples.

(** ** The limiter over its buckets (rate_limiter.py) *)
Section Limiter.
Import RateLimiter Props.
Local Open Scope Q_scope.
Variable monotonic : nat -> Q.
Implicit Types (rl : RateLimiter) (b : TokenBucket) (n : nat).

Lemma app_String a (s1 s2 : string) :
  String a s1 +:+ s2 = String a (s1 +:+ s2).
Proof. reflexivity. Qed.

Lemma target_key_ne channel t : channel +:+ ":" +:+ t <> channel.
Proof.
  induction channel as [|a channel IH]; [discriminate|].
  rewrite app_String. intros [= H]. exact (IH H).
Qed.

Lemma channel_of_target_key channel t :
  channel_of (channel +:+ ":" +:+ t) = channel_of channel.
Proof.
  induction channel as [|a channel IH]; [reflexivity|].
  rewrite app_String. cbn [channel_of].
  destruct (Ascii.eqb a ":"); [reflexivity|]. rewrite IH. reflexivity.
Qed.

(** What [consume_at] does: one [try_consume] on the bucket under the
    key, created if need be, and nothing else. *)
Lemma consume_at_spec key n rl :
  let r := consume_at monotonic key n rl in
  _limits r.1.2 = _limits rl /\
  _global_bucket r.1.2 = _global_bucket rl /\
  (n <= r.2)%nat /\
  (forall k, k <> key -> _buckets r.1.2 !! k = _buckets rl !! k) /\
  (r.1.1 = true -> consumed_at r.1.2 key = (consumed_at rl key + 1)%Z).
Proof.
  unfold consume_at, _get_bucket, consumed_at.
  destruct (_buckets rl !! key) as [b|] eqn:Hb.
  - pose proof (try_consume_step 1 (monotonic n) (monotonic (S n)) b) as H.
    cbv zeta in H.
    destruct (try_consume 1 (monotonic n) (monotonic (S n)) b) as [ok b'].
    cbn [fst snd _limits _global_bucket _buckets] in *.
    split_and!; [reflexivity|reflexivity|lia| |].
    + intros k Hk. apply lookup_insert_ne. congruence.
    + intros ->. rewrite lookup_insert_eq.
      destruct H as (_ & _ & _ & _ & _ & _ & _ & Hc & _). exact Hc.
  - set (b := init _ (monotonic n)).
    pose proof (try_consume_step 1 (monotonic (S n)) (monotonic (S (S n))) b)
      as H.
    cbv zeta in H.
    destruct (try_consume 1 (monotonic (S n)) (monotonic (S (S n))) b)
      as [ok b'].
    cbn [fst snd _limits _global_bucket _buckets] in *.
    split_and!; [reflexivity|reflexivity|lia| |].
    + intros k Hk. rewrite !lookup_insert_ne by congruence. reflexivity.
    + intros ->. rewrite lookup_insert_eq.
      destruct H as (_ & _ & _ & _ & _ & _ & _ & Hc & _). exact Hc.
Qed.


(** A [check] charges each level as it goes and gives nothing back.
    The global bucket is always charged by one [try_consume], whatever
    the channel and target buckets answer afterwards, so a check they
    refuse has still taken the global token.  A check that answers
    True has consumed once from the global bucket, from the channel's
    bucket and, with a target, from the target's bucket.  The buckets
    under other keys and the limits are never touched. *)
Theorem check_charges_each_level channel target n rl :
  let r := check monotonic channel target n rl in
  _limits r.1.2 = _limits rl /\
  _global_bucket r.1.2
  = (try_consume 1 (monotonic n) (monotonic (S n)) (_global_bucket rl)).2 /\
  (forall k, k <> channel ->
     (forall t, target = Some t -> k <> channel +:+ ":" +:+ t) ->
     _buckets r.1.2 !! k = _buckets rl !! k) /\
  (r.1.1 = true ->
   (try_consume 1 (monotonic n) (monotonic (S n)) (_global_bucket rl)).1
   = true /\
   consumed_at r.1.2 channel = (consumed_at rl channel + 1)%Z /\
   (forall t, target = Some t -> t <> "" ->
      consumed_at r.1.2 (channel +:+ ":" +:+ t)
      = (consumed_at rl (channel +:+ ":" +:+ t) + 1)%Z)).
Proof.
  unfold check.
  destruct (try_consume 1 (monotonic n) (monotonic (S n)) (_global_bucket rl))
    as [okg g]. cbn [fst snd].
  destruct okg; cbn [negb];
    [|cbn; split_and!; try reflexivity; discriminate].
  set (rl1 := mk_RateLimiter (_buckets rl) (_limits rl) g).
  pose proof (consume_at_spec channel (S (S n)) rl1) as Hc. cbv zeta in Hc.
  destruct (consume_at monotonic channel (S (S n)) rl1) as [[okc rl2] n2].
  cbn [fst snd] in Hc. destruct Hc as (Hl2 & Hg2 & Hn2 & Hf2 & Hc2).
  change (_buckets rl1) with (_buckets rl) in Hf2.
  change (consumed_at rl1 channel) with (consumed_at rl channel) in Hc2.
  destruct okc; cbn [negb];
    [|cbn [fst snd]; split_and!; try assumption;
      [intros k Hk _; exact (Hf2 k Hk)|discriminate]].
  destruct target as [t|];
    [|cbn [fst snd]; split_and!; try assumption;
      [intros k Hk _; exact (Hf2 k Hk)|
       intros _; split_and!; [reflexivity|auto|discriminate]]].
  destruct (String.eqb t "") eqn:Ht.
  { apply String.eqb_eq in Ht. subst t. cbn [fst snd].
    split_and!; try assumption; [intros k Hk _; exact (Hf2 k Hk)|].
    intros _. split_and!; [reflexivity|auto|].
    intros t [= <-] Hne. congruence. }
  pose proof (consume_at_spec (channel +:+ ":" +:+ t) n2 rl2) as Ht2.
  cbv zeta in Ht2.
  destruct (consume_at monotonic (channel +:+ ":" +:+ t) n2 rl2)
    as [[okt rl3] n3].
  cbn [fst snd] in *. destruct Ht2 as (Hl3 & Hg3 & Hn3 & Hf3 & Hc3).
  split_and!;
    [rewrite Hl3, Hl2; reflexivity|rewrite Hg3, Hg2; reflexivity| |].
  - intros k Hk Hkt. rewrite Hf3 by (apply Hkt; reflexivity).
    apply Hf2, Hk.
  - intros ->. split_and!; [reflexivity| |].
    + unfold consumed_at in *.
      rewrite Hf3 by (apply not_eq_sym, target_key_ne). auto.
    + intros t' [= <-] _. rewrite (Hc3 eq_refl). unfold consumed_at.
      rewrite Hf2 by apply target_key_ne. reflexivity.
Qed.

(** A new bucket takes the limits of its channel: the bucket that
    [_get_bucket] creates for a channel, or for a target of the
    channel, is configured by the custom limits given to the limiter
    for the part of the channel name before its first colon, else by
    the default limits for it, else by [BucketConfig()]; it starts
    full at its capacity and without a last consumption.  The names of
    the six channel types hold no colon. *)
Lemma new_bucket_takes_channel_limits custom t0 channel key n rl :
  key = channel \/ (exists t, key = channel +:+ ":" +:+ t) ->
  _buckets rl !! key = None ->
  _limits rl = _limits (new custom t0) ->
  let r := _get_bucket monotonic key n rl in
  config r.1.1
  = match default ∅ custom !! channel_of channel with
    | Some cfg => cfg
    | None => default default_config (DEFAULT_LIMITS !! channel_of channel)
    end /\
  _tokens r.1.1 = capacity (config r.1.1) /\
  _last_consume r.1.1 = 0 /\
  _buckets r.1.2 !! key = Some r.1.1 /\
  (forall c, channel_of (Models.channel_value c) = Models.channel_value c).
Proof.
  intros Hkey Hnone Hlim. unfold _get_bucket. rewrite Hnone.
  cbn [fst snd init config _tokens _last_consume _buckets].
  assert (Hch : channel_of key = channel_of channel).
  { destruct Hkey as [-> | [t ->]]; [reflexivity|].
    apply channel_of_target_key. }
  rewrite Hch, Hlim. unfold new. cbn [_limits].
  rewrite lookup_union.
  split_and!; try reflexivity.
  - destruct (default ∅ custom !! channel_of channel) as [cfg|];
      destruct (DEFAULT_LIMITS !! channel_of channel); reflexivity.
  - apply lookup_insert_eq.
  - intros []; reflexivity.
Qed.

Lemma app_app (s1 s2 s3 : string) :
  (s1 +:+ s2) +:+ s3 = s1 +:+ s2 +:+ s3.
Proof.
  induction s1 as [|a s1 IH]; [reflexivity|].
  rewrite !app_String, IH. reflexivity.
Qed.

Lemma startswith_app p s : startswith p (p +:+ s) = true.
Proof.
  induction p as [|a p IH]; [reflexivity|].
  rewrite app_String. cbn [startswith].
  rewrite Ascii.eqb_refl. exact IH.
Qed.

Lemma reset_forgets scope channel rl :
  scope = None \/ scope = Some "" \/ scope = Some channel ->
  _limits (reset scope rl) = _limits rl /\
  _global_bucket (reset scope rl) = _global_bucket rl /\
  _buckets (reset scope rl) !! channel = None /\
  (forall t, _buckets (reset scope rl) !! (channel +:+ ":" +:+ t) = None).
Proof.
  intros Hscope. unfold reset.
  destruct Hscope as [-> | [-> | ->]];
    [cbn; split_and!; try reflexivity; intros; apply lookup_empty ..|].
  destruct (String.eqb channel "") eqn:He;
    [cbn; split_and!; try reflexivity; intros; apply lookup_empty|].
  cbn [_limits _global_bucket _buckets]. split_and!; try reflexivity.
  - apply map_lookup_filter_None. right. intros b _. cbn [fst].
    rewrite String.eqb_refl. cbn. discriminate.
  - intros t. apply map_lookup_filter_None. right. intros b _. cbn [fst].
    replace (channel +:+ ":" +:+ t) with ((channel +:+ ":") +:+ t)
      by apply app_app.
    rewrite startswith_app, orb_true_r. cbn. discriminate.
Qed.

(** A reset lifts the limit at once: after [reset()] or
    [reset(channel)], a [check] on the channel is answered True as
    soon as the global bucket admits it, when the channel's limits
    give a capacity of at least one, a burst and a refill rate that
    are not negative, and the clock does not go back between the new
    bucket's creation and its refill. *)
Theorem check_after_reset_is_admitted scope channel n rl :
  scope = None \/ scope = Some "" \/ scope = Some channel ->
  1 <= capacity (default default_config (_limits rl !! channel_of channel)) ->
  0 <= burst (default default_config (_limits rl !! channel_of channel)) ->
  0 <= refill_rate
         (default default_config (_limits rl !! channel_of channel)) ->
  monotonic (S (S n)) <= monotonic (S (S (S n))) ->
  (try_consume 1 (monotonic n) (monotonic (S n)) (_global_bucket rl)).1
  = true ->
  (check monotonic channel None n (reset scope rl)).1.1 = true.
Proof.
  intros Hscope Hcap Hburst Hrate Hclock Hglobal.
  destruct (reset_forgets scope channel rl Hscope) as (Hl & Hg & Hb & _).
  unfold check. rewrite Hg.
  destruct (try_consume 1 (monotonic n) (monotonic (S n)) (_global_bucket rl))
    as [okg g]. cbn [fst] in Hglobal. subst okg. cbn [negb].
  unfold consume_at, _get_bucket. cbn [_buckets _limits]. rewrite Hb, Hl.
  set (cfg := default default_config (_limits rl !! channel_of channel)) in *.
  assert (Hok : (try_consume 1 (monotonic (S (S (S n))))
                   (monotonic (S (S (S (S n))))) (init cfg (monotonic (S (S n))))).1
                = true).
  { unfold try_consume. cbn [_refill init _last_consume config _tokens
                               _last_refill].
    change (Qlt_bool 0 0) with false. cbn [andb].
    assert (Hle : Qle_bool 1
                    (py_min (capacity cfg + burst cfg)
                       (capacity cfg
                        + (monotonic (S (S (S n))) - monotonic (S (S n)))
                          * refill_rate cfg)) = true).
    { apply Qle_bool_iff. apply py_min_ge; [lra|].
      assert (0 <= (monotonic (S (S (S n))) - monotonic (S (S n)))
                   * refill_rate cfg)
        by (apply Qmult_le_0_compat; lra).
      lra. }
    rewrite Hle. reflexivity. }
  destruct (try_consume 1 _ _ (init cfg _)) as [okc b']. cbn [fst] in Hok.
  subst okc. reflexivity.
Qed.



End Limiter.

Section LimiterExamples.
Import RateLimiter Props.
Local Open Scope Q_scope.

Lemma tenths_mono i : tenths i <= tenths (S i).
Proof.
  unfold tenths, Qdiv. apply Qmult_le_compat_r; [|vm_compute; discriminate].
  rewrite <- Zle_Qle. lia.
Qed.

(** A second check on slack within its cooldown of a second: the
    slack bucket refuses, the global bucket has consumed twice. *)
Lemma check_charges_each_level_witness :
  (check tenths "slack" None 6 slack_checked).1.1 = false /\
  _total_consumed (_global_bucket slack_checked) = 1%Z /\
  _total_consumed
    (_global_bucket (check tenths "slack" None 6 slack_checked).1.2) = 2%Z /\
  _buckets (check tenths "slack" None 6 slack_checked).1.2 !! "email"
  = _buckets slack_checked !! "email".
Proof.
  destruct (check_charges_each_level tenths "slack" None 6 slack_checked)
    as (_ & Hg & Hframe & _).
  split_and!.
  - vm_compute. reflexivity.
  - vm_compute. reflexivity.
  - rewrite Hg. vm_compute. reflexivity.
  - apply Hframe; [discriminate|]. intros t Ht. discriminate Ht.
Defined.

(** The second check on slack is admitted once slack is reset. *)
Lemma check_after_reset_is_admitted_witness :
  (check tenths "slack" None 6 slack_checked).1.1 = false /\
  (check tenths "slack" None 6 (reset (Some "slack") slack_checked)).1.1
  = true.
Proof.
  split; [vm_compute; reflexivity|].
  apply (check_after_reset_is_admitted tenths (Some "slack") "slack" 6
           slack_checked).
  - right. right. reflexivity.
  - vm_compute. discriminate.
  - vm_compute. discriminate.
  - vm_compute. discriminate.
  - apply tenths_mono.
  - vm_compute. reflexivity.
Defined.

End LimiterExamples.

(** ** Reading a message from a dictionary (models.py) *)
Section FromDict.
Import Models Props.

Lemma bind_Ok {A B} (r : result A) (f : A -> result B) b :
  r ≫= f = Ok b -> exists a, r = Ok a /\ f a = Ok b.
Proof. destruct r as [a|e]; [eauto|discriminate]. Qed.

Ltac find_eqb H :=
  repeat match type of H with
    | context [String.eqb ?a ?s] =>
        let E := fresh "E" in
        destruct (String.eqb a s) eqn:E;
        [apply String.eqb_eq in E; subst s; injection H as <-; reflexivity|]
    | context [Z.eqb ?a ?n] =>
        let E := fresh "E" in
        destruct (Z.eqb a n) eqn:E;
        [apply Z.eqb_eq in E; subst n; injection H as <-; reflexivity|]
    end; try discriminate H.

Lemma ChannelType_of_Ok v c :
  ChannelType_of v = Ok c -> v = VStr (channel_value c).
Proof.
  destruct v; try discriminate. unfold ChannelType_of.
  cbn [find all_channels channel_value]. intros H. find_eqb H.
Qed.




(** What [from_dict] accepts and returns: it returns a message only
    for a dictionary that holds the values of two channel types under
    from_channel and to_channel; the message carries these channels,
    the id, content and target of the dictionary or else the fresh id
    and the empty string, the priority NORMAL, the status PENDING, no
    retry, three retries at most and no attachments where the
    dictionary gives none; whatever the dictionary holds under
    created_at and sent_at, the message is created now and not sent.
    The values are read at the declared types of the fields. *)
Theorem from_dict_reads_named_fields now fresh data m :
  from_dict now fresh data = Ok m ->
  dict_get data "from_channel" = Some (VStr (channel_value (from_channel m)))
  /\ dict_get data "to_channel" = Some (VStr (channel_value (to_channel m)))
  /\ dict_get_default data "id" (VStr fresh) = VStr (id m)
  /\ dict_get_default data "content" (VStr "") = VStr (content m)
  /\ dict_get_default data "target" (VStr "") = VStr (target m)
  /\ (dict_get data "priority" = None -> priority m = NORMAL)
  /\ (dict_get data "status" = None -> status m = PENDING)
  /\ (dict_get data "retry_count" = None -> retry_count m = 0)
  /\ (dict_get data "max_retries" = None -> max_retries m = 3)
  /\ (dict_get data "attachments" = None -> attachments m = [])
  /\ created_at m = now /\ sent_at m = None.
Proof.
  unfold from_dict, dict_index, dict_get_default. intros H.
  apply bind_Ok in H as (atts & Hatts & H).
  apply bind_Ok in H as (id' & Hid & H).
  apply bind_Ok in H as (fc & Hfc & H).
  apply bind_Ok in H as (tc & Htc & H).
  apply bind_Ok in H as (content' & Hcontent & H).
  apply bind_Ok in H as (target' & Htarget & H).
  apply bind_Ok in H as (metadata' & _ & H).
  apply bind_Ok in H as (priority' & Hprio & H).
  apply bind_Ok in H as (status' & Hstatus & H).
  apply bind_Ok in H as (template' & _ & H).
  apply bind_Ok in H as (tvars & _ & H).
  apply bind_Ok in H as (rc & Hrc & H).
  apply bind_Ok in H as (mr & Hmr & H).
  apply bind_Ok in H as (le & _ & H).
  injection H as <-.
  cbn [from_channel to_channel id content target priority status
       retry_count Models.max_retries attachments created_at sent_at].
  apply bind_Ok in Hfc as (vf & Hvf & Hfc).
  apply bind_Ok in Htc as (vt & Hvt & Htc).
  apply ChannelType_of_Ok in Hfc, Htc. subst vf vt.
  split_and!; try reflexivity.
  - destruct (dict_get data "from_channel"); [congruence|discriminate].
  - destruct (dict_get data "to_channel"); [congruence|discriminate].
  - destruct (default (VStr fresh) (dict_get data "id"));
      try discriminate. cbn in Hid. congruence.
  - destruct (default (VStr "") (dict_get data "content"));
      try discriminate. cbn in Hcontent. congruence.
  - destruct (default (VStr "") (dict_get data "target"));
      try discriminate. cbn in Htarget. congruence.
  - intros Hn. rewrite Hn in Hprio. cbn in Hprio. congruence.
  - intros Hn. rewrite Hn in Hstatus. cbn in Hstatus. congruence.
  - intros Hn. rewrite Hn in Hrc. cbn in Hrc. congruence.
  - intros Hn. rewrite Hn in Hmr. cbn in Hmr. congruence.
  - intros Hn. rewrite Hn in Hatts. cbn in Hatts. congruence.
Qed.

(** A dictionary without attachments and with a text id, or none,
    that lacks from_channel is refused with KeyError 'from_channel';
    one that names something else than a channel type there is refused
    with a ValueError. *)
Theorem from_dict_refuses_bad_channel now fresh data :
  dict_get data "attachments" = None ->
  (exists i, dict_get_default data "id" (VStr fresh) = VStr i) ->
  (dict_get data "from_channel" = None ->
   from_dict now fresh data = Raise (KeyError "from_channel")) /\
  (forall v,
     dict_get data "from_channel" = Some v ->
     (forall c, v <> VStr (channel_value c)) ->
     exists text, from_dict now fresh data = Raise (ValueError text)).
Proof.
  intros Hatts [i Hid]. unfold from_dict, dict_index.
  unfold dict_get_default in *. rewrite Hatts, Hid.
  cbn [default build_attachments mbind result_bind as_str]. split.
  - intros ->. reflexivity.
  - intros v -> Hv. cbn [mbind result_bind].
    destruct (ChannelType_of v) as [c|e] eqn:Hc.
    + apply ChannelType_of_Ok in Hc. destruct (Hv c Hc).
    + cbn [mbind result_bind]. unfold ChannelType_of in Hc.
      destruct v; try (injection Hc as <-; eauto).
      destruct (find _ all_channels); [discriminate|].
      injection Hc as <-. eauto.
Qed.
End FromDict.

(** The dictionary of a command line call. *)
Lemma from_dict_reads_named_fields_witness :
  exists m,
    Models.from_dict Props.noon "fresh-id"
      [("from_channel", VStr "webhook"); ("to_channel", VStr "slack");
       ("content", VStr "hello"); ("created_at", VStr "1999-01-01T00:00:00")]
    = Ok m /\
    Models.to_channel m = Models.SLACK /\
    Models.id m = "fresh-id" /\
    Models.created_at m = Props.noon.
Proof.
  eexists. split; [reflexivity|].
  destruct (from_dict_reads_named_fields Props.noon "fresh-id"
              [("from_channel", VStr "webhook"); ("to_channel", VStr "slack");
               ("content", VStr "hello");
               ("created_at", VStr "1999-01-01T00:00:00")] _ eq_refl)
    as (_ & _ & _ & _ & _ & _ & _ & _ & _ & _ & Hnow & _).
  split; [reflexivity|]. split; [reflexivity|exact Hnow].
Defined.

(** A dictionary that only names its destination. *)
Lemma from_dict_refuses_bad_channel_witness :
  Models.from_dict Props.noon "fresh-id" [("to_channel", VStr "slack")]
  = Raise (KeyError "from_channel").
Proof.
  apply (proj1 (from_dict_refuses_bad_channel Props.noon "fresh-id"
                  [("to_channel", VStr "slack")] eq_refl
                  (ex_intro _ "fresh-id" eq_refl))).
  reflexivity.
Defined.
